(** * A shallow embedding of [main.py] of the API endpoint validator

    The program loads an API schema (YAML or JSON), scans a source tree for
    Flask-style [@app.route(...)] declarations and checks every discovered
    endpoint against the schema's [paths].  This file embeds the class
    [APIEndpointValidator] and the driver [main] and states the properties of
    its specification about them. *)

From Stdlib Require Import String Ascii List ZArith Bool Lia.
From Corelib Require Import PrimFloat.
Import ListNotations.
Open Scope string_scope.
Set Warnings "-register-all".

(** ** Parsed documents

    [yaml.safe_load] and [json.load] return a generic Python object tree.
    An [int] is unbounded, as [Z]; a [float] is a binary64 number, as the
    primitive floats; [!!binary] gives [bytes], [!!set] a [set], [!!omap]
    and [!!pairs] a list of [tuple]s, and [!!timestamp] a [datetime.date]
    (date only) or a [datetime.datetime], kept as its text.  Keys of a
    mapping are arbitrary documents, as in YAML.  A mapping is the
    association list of its items, in insertion order, with pairwise
    distinct keys as a Python dict has them; a set is the list of its
    elements. *)

Inductive value : Type :=
| VNone
| VBool (b : bool)
| VInt (z : Z)
| VFloat (f : float)
| VStr (s : string)
| VBytes (b : list Byte.byte)
| VList (l : list value)
| VTuple (l : list value)
| VDict (kvs : list (value * value))
| VSet (l : list value)
| VTimestamp (has_time : bool) (text : string).

(** Python truthiness ([not x]). *)
Definition truthy (v : value) : bool :=
  match v with
  | VNone => false
  | VBool b => b
  | VInt z => negb (Z.eqb z 0)
  | VFloat f => negb (PrimFloat.eqb f 0%float)
  | VStr s => negb (String.eqb s EmptyString)
  | VBytes b => negb (match b with [] => true | _ => false end)
  | VList l | VTuple l | VSet l => negb (match l with [] => true | _ => false end)
  | VDict kvs => negb (match kvs with [] => true | _ => false end)
  | VTimestamp _ _ => true
  end.

Definition type_name (v : value) : string :=
  match v with
  | VNone => "NoneType"
  | VBool _ => "bool"
  | VInt _ => "int"
  | VFloat _ => "float"
  | VStr _ => "str"
  | VBytes _ => "bytes"
  | VList _ => "list"
  | VTuple _ => "tuple"
  | VDict _ => "dict"
  | VSet _ => "set"
  | VTimestamp false _ => "datetime.date"
  | VTimestamp true _ => "datetime.datetime"
  end.

(** [s == v] for a Python [str] [s]: only an equal [str] compares equal. *)
Definition str_eq_value (s : string) (v : value) : bool :=
  match v with
  | VStr s' => String.eqb s s'
  | _ => false
  end.

(** ** Strings *)

Fixpoint prefixb (p s : string) : bool :=
  match p, s with
  | EmptyString, _ => true
  | String a p', String b s' => Ascii.eqb a b && prefixb p' s'
  | String _ _, EmptyString => false
  end.

(** [p in s] for two Python strings: substring test. *)
Fixpoint substrb (p s : string) : bool :=
  prefixb p s ||
  match s with
  | EmptyString => false
  | String _ s' => substrb p s'
  end.

(** [s.endswith(suf)]. *)
Definition endswith (s suf : string) : bool :=
  let n := String.length s in
  let m := String.length suf in
  (m <=? n)%nat && String.eqb (String.substring (n - m) m s) suf.

Fixpoint sdrop (n : nat) (s : string) : string :=
  match n, s with
  | O, _ => s
  | S n', String _ s' => sdrop n' s'
  | S _, EmptyString => EmptyString
  end.

Definition dquote : ascii := ascii_of_nat 34.
Definition newline : ascii := ascii_of_nat 10.
Definition squote : ascii := "'"%char.

(** [os.path.join(a, b)] (posixpath). *)
Definition path_join (a b : string) : string :=
  if prefixb "/" b then b
  else if String.eqb a EmptyString || endswith a "/" then a ++ b
  else a ++ "/" ++ b.

(** ** Exceptions, outcomes and the log *)

Inductive exn : Type :=
| FileNotFoundError (path : string)
| OSError (msg : string)            (* PermissionError, IsADirectoryError, ... *)
| UnicodeDecodeError (msg : string)
| YAMLError (msg : string)
| JSONDecodeError (msg : string)
| ValueError (msg : string)
| TypeError (msg : string)
| AttributeError (msg : string)
| KeyError (key : string)
| SystemExit (code : Z).

(** [isinstance(e, Exception)]: [SystemExit] is a [BaseException] only. *)
Definition is_Exception (e : exn) : bool :=
  match e with SystemExit _ => false | _ => true end.

(** [str(e)]; [SystemExit] is never rendered by the program. *)
Definition exn_str (e : exn) : string :=
  match e with
  | FileNotFoundError p => "[Errno 2] No such file or directory: '" ++ p ++ "'"
  | OSError m | UnicodeDecodeError m | YAMLError m | JSONDecodeError m
  | ValueError m | TypeError m | AttributeError m => m
  | KeyError k => "'" ++ k ++ "'"
  | SystemExit _ => EmptyString
  end.

Inductive outcome (A : Type) : Type :=
| Ok (a : A)
| Raise (e : exn).
Arguments Ok {A} a.
Arguments Raise {A} e.

Inductive level : Type := DEBUG | INFO | WARNING | ERROR | CRITICAL.

(** Observable effects: files opened and records handed to [logging]
    (the level filter of the handler is not modelled). *)
Inductive event : Type :=
| EOpen (path : string)
| ELog (lvl : level) (msg : string).

(** ** Python operations on documents used by [validate_endpoints] *)

(** [s in container] for a [str] [s]. *)
Definition py_contains (s : string) (container : value) : outcome bool :=
  match container with
  | VDict kvs => Ok (existsb (fun kv => str_eq_value s (fst kv)) kvs)
  | VList l | VTuple l | VSet l => Ok (existsb (str_eq_value s) l)
  | VStr t => Ok (substrb s t)
  | VBytes _ => Raise (TypeError "a bytes-like object is required, not 'str'")
  | v => Raise (TypeError ("argument of type '" ++ type_name v ++ "' is not iterable"))
  end.

Fixpoint dict_get (k : string) (kvs : list (value * value)) : option value :=
  match kvs with
  | [] => None
  | (k', v) :: rest => if str_eq_value k k' then Some v else dict_get k rest
  end.

(** [container[k]] for a [str] [k]. *)
Definition py_getitem (container : value) (k : string) : outcome value :=
  match container with
  | VDict kvs =>
      match dict_get k kvs with
      | Some v => Ok v
      | None => Raise (KeyError k)
      end
  | VList _ => Raise (TypeError "list indices must be integers or slices, not str")
  | VTuple _ => Raise (TypeError "tuple indices must be integers or slices, not str")
  | VStr _ => Raise (TypeError "string indices must be integers, not 'str'")
  | VBytes _ => Raise (TypeError "byte indices must be integers or slices, not str")
  | v => Raise (TypeError ("'" ++ type_name v ++ "' object is not subscriptable"))
  end.

(** [v.keys()]. *)
Definition py_keys (v : value) : outcome (list value) :=
  match v with
  | VDict kvs => Ok (map fst kvs)
  | v => Raise (AttributeError ("'" ++ type_name v ++ "' object has no attribute 'keys'"))
  end.

(** [m in ['get', ...]]: list membership by [==]. *)
Definition py_in_str_list (m : value) (l : list string) : bool :=
  existsb (fun s => str_eq_value s m) l.

(** ** The validator object and the effect monad

    A method reads and updates [self], appends to the observable trace and
    may raise; the state reached when an exception is raised is kept, as in
    Python. *)

Record validator : Type := mkValidator {
  code_path : string;
  schema_path : string;
  endpoints : list (string * string);
  schema : value
}.

Record pystate : Type := mkState { self : validator; trace : list event }.

Definition ST (A : Type) : Type := pystate -> pystate * outcome A.

Definition ret {A} (a : A) : ST A := fun st => (st, Ok a).
Definition raise {A} (e : exn) : ST A := fun st => (st, Raise e).
Definition bind {A B} (m : ST A) (k : A -> ST B) : ST B :=
  fun st =>
    match m st with
    | (st', Ok a) => k a st'
    | (st', Raise e) => (st', Raise e)
    end.

Notation "'let*' x ':=' m 'in' k" := (bind m (fun x => k))
  (at level 200, x name, m at level 100, k at level 200).

Definition lift {A} (o : outcome A) : ST A := fun st => (st, o).
Definition get_self : ST validator := fun st => (st, Ok (self st)).
Definition put_self (v : validator) : ST unit :=
  fun st => (mkState v (trace st), Ok tt).
Definition emit (ev : event) : ST unit :=
  fun st => (mkState (self st) (trace st ++ [ev])%list, Ok tt).
Definition log (lvl : level) (msg : string) : ST unit := emit (ELog lvl msg).

(** [try: m except ...: h e]. *)
Definition try_except {A} (m : ST A) (h : exn -> ST A) : ST A :=
  fun st =>
    match m st with
    | (st', Raise e) => h e st'
    | r => r
    end.

Fixpoint for_each {A} (l : list A) (body : A -> ST unit) : ST unit :=
  match l with
  | [] => ret tt
  | x :: rest => let* _ := body x in for_each rest body
  end.

(** ** The environment: files and directory listings *)

(** A file that [open] refuses raises an [OSError] (PermissionError,
    IsADirectoryError, ...); a file that opens may still fail to be read,
    with an [OSError] or, when its bytes are not valid text, a
    [UnicodeDecodeError]. *)
Inductive fentry : Type :=
| FText (content : string)
| FNoOpen (msg : string)
| FNoRead (decode : bool) (msg : string).

Record world : Type := mkWorld {
  files : list (string * fentry);
  (** what [os.walk(top)] yields: [(root, dirs, files)] triples *)
  walk : string -> list (string * list string * list string)
}.

Fixpoint fs_lookup (p : string) (fs : list (string * fentry)) : option fentry :=
  match fs with
  | [] => None
  | (p', f) :: rest => if String.eqb p p' then Some f else fs_lookup p rest
  end.

(** [open(p, 'r')]. *)
Definition py_open (w : world) (p : string) : ST fentry :=
  let* _ := emit (EOpen p) in
  match fs_lookup p (files w) with
  | None => raise (FileNotFoundError p)
  | Some (FNoOpen msg) => raise (OSError msg)
  | Some f => ret f
  end.

(** [f.read()]. *)
Definition py_read (f : fentry) : outcome string :=
  match f with
  | FText c => Ok c
  | FNoOpen msg => Raise (OSError msg)
  | FNoRead true msg => Raise (UnicodeDecodeError msg)
  | FNoRead false msg => Raise (OSError msg)
  end.

(** ** [APIEndpointValidator.validate_endpoints] *)

Definition valid_http_methods : list string :=
  ["get"; "post"; "put"; "delete"; "patch"; "options"; "head"].

Definition not_found_msg (endpoint file_path : string) : string :=
  "Endpoint '" ++ endpoint ++ "' (defined in " ++ file_path ++ ") not found in schema.".

Definition no_methods_msg (endpoint : string) : string :=
  "Endpoint '" ++ endpoint ++ "' in schema does not define valid HTTP methods.".

(** The [for file_path, endpoint in self.endpoints] loop, with [errors]
    accumulated; [sch] is [self.schema], unchanged during the loop. *)
Fixpoint validate_loop (sch : value) (eps : list (string * string))
    (errors : list string) : ST (list string) :=
  match eps with
  | [] => ret errors
  | (file_path, endpoint) :: rest =>
      let* paths := lift (py_getitem sch "paths") in
      let* found := lift (py_contains endpoint paths) in
      if negb found then
        validate_loop sch rest (errors ++ [not_found_msg endpoint file_path])%list
      else
        let* _ := log DEBUG ("Endpoint '" ++ endpoint ++ "' found in schema.") in
        let* paths' := lift (py_getitem sch "paths") in
        let* entry := lift (py_getitem paths' endpoint) in
        let* methods := lift (py_keys entry) in
        if negb (existsb (fun m => py_in_str_list m valid_http_methods) methods) then
          validate_loop sch rest (errors ++ [no_methods_msg endpoint])%list
        else validate_loop sch rest errors
  end.

Definition validate_endpoints : ST (list string) :=
  let* v := get_self in
  if negb (truthy (schema v)) then
    let* _ := log ERROR "Schema not loaded. Call load_schema() first." in
    ret ["Schema not loaded."]
  else
    let* has_paths := lift (py_contains "paths" (schema v)) in
    if negb has_paths then
      let* _ := log WARNING "No 'paths' defined in the schema.  Cannot validate endpoints." in
      ret ["No paths defined in schema"]
    else validate_loop (schema v) (endpoints v) [].

(** The value [validate_endpoints()] returns on a validator object. *)
Definition validate_on (v : validator) : outcome (list string) :=
  snd (validate_endpoints (mkState v [])).

(** ** The route pattern of [find_endpoints] and [re.findall]

    The pattern is [@app\.route\(] followed by a single or double quote,
    the lazy group [(.*?)] and a single or double quote. *)

Definition is_quote (c : ascii) : bool := Ascii.eqb c squote || Ascii.eqb c dquote.

Definition route_prefix : string := "@app.route(".

(** The lazy group [(.*?)] followed by a quote: the shortest run of characters
    other than a newline that is followed by a quote; returns the group and
    the text after the closing quote. *)
Fixpoint lazy_group (s : string) : option (string * string) :=
  match s with
  | EmptyString => None
  | String c rest =>
      if is_quote c then Some (EmptyString, rest)
      else if Ascii.eqb c newline then None
      else match lazy_group rest with
           | Some (g, r) => Some (String c g, r)
           | None => None
           end
  end.

(** A match of the pattern starting at the first character of [s]. *)
Definition match_at (s : string) : option (string * string) :=
  if prefixb route_prefix s then
    match sdrop (String.length route_prefix) s with
    | String q rest => if is_quote q then lazy_group rest else None
    | EmptyString => None
    end
  else None.

(** Non-overlapping matches, left to right; the scan resumes after the end
    of each match.  [fuel] bounds the number of steps (each one consumes at
    least one character). *)
Fixpoint findall_fuel (fuel : nat) (s : string) : list string :=
  match fuel with
  | O => []
  | S fuel' =>
      match s with
      | EmptyString => []
      | String _ s' =>
          match match_at s with
          | Some (g, rest) => g :: findall_fuel fuel' rest
          | None => findall_fuel fuel' s'
          end
      end
  end.

Definition findall (content : string) : list string :=
  findall_fuel (String.length content) content.

(** ** [APIEndpointValidator.find_endpoints] *)

Definition extend_endpoints (new : list (string * string)) : ST unit :=
  let* v := get_self in
  put_self (mkValidator (code_path v) (schema_path v) (endpoints v ++ new)%list (schema v)).

Definition scan_file (w : world) (root file : string) : ST unit :=
  if endswith file ".py" then
    let file_path := path_join root file in
    let* f := py_open w file_path in
    let* content := lift (py_read f) in
    let matches := findall content in
    extend_endpoints (map (fun endpoint => (file_path, endpoint)) matches)
  else ret tt.

Definition find_endpoints (w : world) : ST unit :=
  try_except
    (let* v := get_self in
     for_each (walk w (code_path v))
       (fun '(root, _, fs) => for_each fs (scan_file w root)))
    (fun e =>
       if is_Exception e then
         let* _ := log ERROR ("Error finding endpoints: " ++ exn_str e) in raise e
       else raise e).

(** ** [APIEndpointValidator.load_schema] and [main]

    The parsers are the libraries' [yaml.safe_load] and [json.loads] on the
    text of the file: each gives the document or the syntax diagnostic it
    raises with [yaml.YAMLError], resp. [json.JSONDecodeError]. *)

Section Loader.

Variable yaml_safe_load : string -> value + string.
Variable json_loads : string -> value + string.

Definition parse_yaml (c : string) : outcome value :=
  match yaml_safe_load c with inl d => Ok d | inr m => Raise (YAMLError m) end.

Definition parse_json (c : string) : outcome value :=
  match json_loads c with inl d => Ok d | inr m => Raise (JSONDecodeError m) end.

Definition set_schema (s : value) : ST unit :=
  let* v := get_self in
  put_self (mkValidator (code_path v) (schema_path v) (endpoints v) s).

Definition load_schema_body (w : world) : ST unit :=
  let* v := get_self in
  let p := schema_path v in
  let* f := py_open w p in
  if endswith p ".yaml" || endswith p ".yml" then
    let* c := lift (py_read f) in
    let* s := lift (parse_yaml c) in
    set_schema s
  else if endswith p ".json" then
    let* c := lift (py_read f) in
    let* s := lift (parse_json c) in
    set_schema s
  else raise (ValueError "Unsupported schema file format. Only YAML and JSON are supported.").

Definition load_schema (w : world) : ST unit :=
  try_except (load_schema_body w)
    (fun e =>
       let* v := get_self in
       match e with
       | FileNotFoundError _ =>
           let* _ := log ERROR ("Schema file not found: " ++ schema_path v) in raise e
       | YAMLError _ =>
           let* _ := log ERROR ("Error parsing YAML schema: " ++ exn_str e) in raise e
       | JSONDecodeError _ =>
           let* _ := log ERROR ("Error parsing JSON schema: " ++ exn_str e) in raise e
       | SystemExit _ => raise e
       | _ => let* _ := log ERROR ("Error loading schema: " ++ exn_str e) in raise e
       end).

(** The body of the [try] block of [main]; [sys.exit(1)] raises
    [SystemExit], which [except Exception] does not catch. *)
Definition main_body (w : world) : ST unit :=
  let* _ := load_schema w in
  let* _ := find_endpoints w in
  let* errors := validate_endpoints in
  match errors with
  | [] => log INFO "API Endpoint Validation Passed."
  | _ :: _ =>
      let* _ := log ERROR "API Endpoint Validation Failed:" in
      let* _ := for_each errors (log ERROR) in
      raise (SystemExit 1)
  end.

(** [main()] from its [try] block on, once [parse_args] has returned the
    arguments [code_path schema_path]: the exit status and the trace of the
    run.  The argument parsing before it (which exits with status 2 on a
    usage error and 0 on [-h], before any file is opened) and the [-v]
    branch, which only lowers the logging threshold, are not embedded. *)
Definition main (w : world) (code_path schema_path : string) : Z * list event :=
  let st0 := mkState (mkValidator code_path schema_path [] VNone) [] in
  match main_body w st0 with
  | (st, Ok _) => (0%Z, trace st)
  | (st, Raise (SystemExit c)) => (c, trace st)
  | (st, Raise e) =>
      (1%Z, (trace st ++ [ELog CRITICAL ("An unexpected error occurred: " ++ exn_str e)])%list)
  end.

End Loader.

Example findall_ex :
  findall ("x = 1" ++ String newline EmptyString ++ "@app.route('/users')" ++ String newline EmptyString
           ++ "@app.route(" ++ String dquote "/items/{item_id}" ++ String dquote EmptyString ++ ")")
  = ["/users"; "/items/{item_id}"].
Proof. reflexivity. Qed.

(** * Properties *)

(** ** Auxiliary facts on documents and on [validate_endpoints] *)

Definition omap {A B} (f : A -> B) (o : outcome A) : outcome B :=
  match o with Ok a => Ok (f a) | Raise e => Raise e end.

Lemma dict_get_contains (k : string) (kvs : list (value * value)) (v : value) :
  dict_get k kvs = Some v -> existsb (fun kv => str_eq_value k (fst kv)) kvs = true.
Proof.
  induction kvs as [|[k' v'] rest IH]; simpl; [discriminate|].
  destruct (str_eq_value k k'); simpl; auto.
Qed.

Lemma dict_get_not_contains (k : string) (kvs : list (value * value)) :
  dict_get k kvs = None -> existsb (fun kv => str_eq_value k (fst kv)) kvs = false.
Proof.
  induction kvs as [|[k' v'] rest IH]; simpl; [reflexivity|].
  destruct (str_eq_value k k'); simpl; [discriminate | auto].
Qed.

Lemma dict_get_truthy (k : string) (kvs : list (value * value)) (v : value) :
  dict_get k kvs = Some v -> truthy (VDict kvs) = true.
Proof. destruct kvs; simpl; [discriminate | reflexivity]. Qed.

(** One iteration of the loop of [validate_endpoints], as a function of
    [self.schema] and the record: the errors it appends. *)
Definition record_step (sch : value) (file_path endpoint : string) : outcome (list string) :=
  match py_getitem sch "paths" with
  | Raise e => Raise e
  | Ok paths =>
      match py_contains endpoint paths with
      | Raise e => Raise e
      | Ok false => Ok [not_found_msg endpoint file_path]
      | Ok true =>
          match py_getitem sch "paths" with
          | Raise e => Raise e
          | Ok paths' =>
              match py_getitem paths' endpoint with
              | Raise e => Raise e
              | Ok entry =>
                  match py_keys entry with
                  | Raise e => Raise e
                  | Ok methods =>
                      if existsb (fun m => py_in_str_list m valid_http_methods) methods
                      then Ok [] else Ok [no_methods_msg endpoint]
                  end
              end
          end
      end
  end.

Ltac step_loop :=
  cbn [validate_loop]; unfold bind, lift, log, emit, record_step;
  repeat match goal with
         | |- context [match py_getitem ?a ?b with _ => _ end] => destruct (py_getitem a b)
         | |- context [match py_contains ?a ?b with _ => _ end] => destruct (py_contains a b) as [[|]|]
         | |- context [match py_keys ?a with _ => _ end] => destruct (py_keys a)
         | |- context [existsb ?f ?l] => destruct (existsb f l)
         end;
  cbn [negb fst snd].

(** The value returned by the loop does not depend on the trace. *)
Lemma validate_loop_snd (sch : value) (eps : list (string * string)) :
  forall errs st st0,
    snd (validate_loop sch eps errs st) = snd (validate_loop sch eps errs st0).
Proof.
  induction eps as [|[fp ep] rest IH]; intros errs st st0; [reflexivity|].
  step_loop; try reflexivity; apply IH.
Qed.

Lemma validate_loop_cons (sch : value) fp ep rest errs st :
  snd (validate_loop sch ((fp, ep) :: rest) errs st)
  = match record_step sch fp ep with
    | Ok e => snd (validate_loop sch rest (errs ++ e) st)
    | Raise x => Raise x
    end.
Proof.
  step_loop; try reflexivity; try apply validate_loop_snd.
  rewrite app_nil_r. apply validate_loop_snd.
Qed.

(** The loop only extends the errors accumulated so far. *)
Lemma validate_loop_acc (sch : value) (eps : list (string * string)) :
  forall errs st,
    snd (validate_loop sch eps errs st) = omap (app errs) (snd (validate_loop sch eps [] st)).
Proof.
  induction eps as [|[fp ep] rest IH]; intros errs st.
  - simpl. rewrite app_nil_r. reflexivity.
  - rewrite !validate_loop_cons.
    destruct (record_step sch fp ep) as [e|x]; [|reflexivity].
    rewrite (IH (errs ++ e)%list), (IH ([] ++ e)%list).
    destruct (snd (validate_loop sch rest [] st)); simpl; [rewrite app_assoc|]; reflexivity.
Qed.

Lemma validate_endpoints_snd (st : pystate) :
  snd (validate_endpoints st) = validate_on (self st).
Proof.
  destruct st as [v tr]. unfold validate_on, validate_endpoints, bind, get_self, lift, log, emit.
  cbn [self fst snd].
  destruct (truthy (schema v)); cbn [negb]; [|reflexivity].
  destruct (py_contains "paths" (schema v)) as [[|]|]; cbn [negb]; try reflexivity.
  apply validate_loop_snd.
Qed.

Lemma validate_on_falsy (v : validator) :
  truthy (schema v) = false -> validate_on v = Ok ["Schema not loaded."].
Proof. intros H. unfold validate_on, validate_endpoints, bind, get_self. simpl. rewrite H. reflexivity. Qed.

Lemma validate_on_no_paths (v : validator) :
  truthy (schema v) = true -> py_contains "paths" (schema v) = Ok false ->
  validate_on v = Ok ["No paths defined in schema"].
Proof.
  intros H1 H2. unfold validate_on, validate_endpoints, bind, get_self, lift. simpl.
  rewrite H1. simpl. rewrite H2. reflexivity.
Qed.

Lemma validate_on_paths (v : validator) :
  truthy (schema v) = true -> py_contains "paths" (schema v) = Ok true ->
  validate_on v = snd (validate_loop (schema v) (endpoints v) [] (mkState v [])).
Proof.
  intros H1 H2. unfold validate_on, validate_endpoints, bind, get_self, lift. simpl.
  rewrite H1. simpl. rewrite H2. reflexivity.
Qed.

(** What the specification says one record contributes, given the value
    [paths] of [schema['paths']]. *)
Definition record_error (paths : value) (file_path endpoint : string) (e : list string) : Prop :=
  (py_contains endpoint paths = Ok false /\ e = [not_found_msg endpoint file_path])
  \/ (py_contains endpoint paths = Ok true /\
      exists mkvs, py_getitem paths endpoint = Ok (VDict mkvs) /\
        existsb (fun m => py_in_str_list m valid_http_methods) (map fst mkvs) = false /\
        e = [no_methods_msg endpoint])
  \/ (py_contains endpoint paths = Ok true /\
      exists mkvs, py_getitem paths endpoint = Ok (VDict mkvs) /\
        existsb (fun m => py_in_str_list m valid_http_methods) (map fst mkvs) = true /\
        e = []).

Lemma record_step_error (sch paths : value) fp ep e :
  py_getitem sch "paths" = Ok paths -> record_step sch fp ep = Ok e -> record_error paths fp ep e.
Proof.
  intros Hp Hs. unfold record_step in Hs. rewrite Hp in Hs. unfold record_error.
  destruct (py_contains ep paths) as [[|]|x] eqn:Hc; try discriminate.
  - destruct (py_getitem paths ep) as [entry|x] eqn:Hg; try discriminate.
    destruct entry as [| | | | | | | |mkvs| |]; try discriminate. simpl in Hs.
    destruct (existsb _ (map fst mkvs)) eqn:Hx; injection Hs as <-.
    + right; right. split; [reflexivity|]. exists mkvs. auto.
    + right; left. split; [reflexivity|]. exists mkvs. auto.
  - injection Hs as <-. left. auto.
Qed.

Lemma record_error_length (paths : value) fp ep e :
  record_error paths fp ep e -> (length e <= 1)%nat.
Proof.
  unfold record_error. intros [[_ ->]|[[_ [? [_ [_ ->]]]]|[_ [? [_ [_ ->]]]]]]; simpl; lia.
Qed.

Lemma validate_loop_records (sch paths : value) (eps : list (string * string)) :
  py_getitem sch "paths" = Ok paths ->
  forall errs0 st errs,
    snd (validate_loop sch eps errs0 st) = Ok errs ->
    exists per, errs = (errs0 ++ concat per)%list /\
      Forall2 (fun r e => record_error paths (fst r) (snd r) e) eps per.
Proof.
  intros Hp. induction eps as [|[fp ep] rest IH]; intros errs0 st errs H.
  - simpl in H. injection H as <-. exists []. split; [rewrite app_nil_r; reflexivity | constructor].
  - rewrite validate_loop_cons in H.
    destruct (record_step sch fp ep) as [e|x] eqn:Hs; [|discriminate].
    destruct (IH _ _ _ H) as [per [-> Hper]].
    exists (e :: per). split.
    + simpl. rewrite app_assoc. reflexivity.
    + constructor; [|exact Hper]. simpl. eapply record_step_error; eauto.
Qed.

Lemma concat_length_le {A B} (R : A -> list B -> Prop) (l : list A) (per : list (list B)) :
  (forall a e, R a e -> (length e <= 1)%nat) ->
  Forall2 R l per -> (length (concat per) <= length l)%nat.
Proof.
  intros HR H. induction H as [|a e l per Hae _ IH]; simpl; [lia|].
  rewrite length_app. specialize (HR _ _ Hae). lia.
Qed.

Lemma contains_dict_get (k : string) (kvs : list (value * value)) :
  existsb (fun kv => str_eq_value k (fst kv)) kvs = true -> exists m, dict_get k kvs = Some m.
Proof.
  induction kvs as [|[k' v'] rest IH]; simpl; [discriminate|].
  destruct (str_eq_value k k'); simpl; eauto.
Qed.

Lemma py_getitem_dict (kvs : list (value * value)) k m :
  dict_get k kvs = Some m -> py_getitem (VDict kvs) k = Ok m.
Proof. intros H. simpl. rewrite H. reflexivity. Qed.

Lemma py_contains_dict_get (kvs : list (value * value)) k m :
  dict_get k kvs = Some m -> py_contains k (VDict kvs) = Ok true.
Proof. intros H. simpl. rewrite (dict_get_contains _ _ _ H). reflexivity. Qed.

(** A document whose [paths] mapping sends every path an endpoint names to a
    mapping of methods. *)
Definition shaped (v : validator) : Prop :=
  truthy (schema v) = false
  \/ (exists kvs, schema v = VDict kvs /\ dict_get "paths" kvs = None)
  \/ (exists kvs pk, schema v = VDict kvs /\ dict_get "paths" kvs = Some (VDict pk) /\
       forall fp ep m, In (fp, ep) (endpoints v) -> dict_get ep pk = Some m ->
         exists mk, m = VDict mk).

Lemma validate_loop_total (sch : value) (pk : list (value * value)) :
  py_getitem sch "paths" = Ok (VDict pk) ->
  forall eps errs st,
    (forall fp ep m, In (fp, ep) eps -> dict_get ep pk = Some m -> exists mk, m = VDict mk) ->
    exists errs', snd (validate_loop sch eps errs st) = Ok errs'.
Proof.
  intros Hp. induction eps as [|[fp ep] rest IH]; intros errs st Hsh.
  - simpl. eauto.
  - rewrite validate_loop_cons. unfold record_step. rewrite Hp. simpl py_contains.
    destruct (existsb _ pk) eqn:Hc.
    + destruct (contains_dict_get _ _ Hc) as [m Hm].
      destruct (Hsh fp ep m (or_introl eq_refl) Hm) as [mk ->].
      simpl py_getitem. rewrite Hm. simpl py_keys. cbv beta iota.
      match goal with |- context [existsb ?f (map fst mk)] => destruct (existsb f (map fst mk)) end;
      apply IH; intros; eapply Hsh; eauto; right; eauto.
    + apply IH. intros; eapply Hsh; eauto; right; eauto.
Qed.

Lemma dict_or_not (m : value) : (exists mk, m = VDict mk) \/ (forall mk, m <> VDict mk).
Proof. destruct m; try (right; intros mk H; discriminate H). left; eauto. Qed.

(** When some record names a path whose method entry is not a mapping, the
    loop raises [AttributeError] on [.keys()] of such an entry. *)
Lemma validate_loop_raises_attr (sch : value) (pk : list (value * value)) :
  py_getitem sch "paths" = Ok (VDict pk) ->
  forall eps errs st fp ep m,
    In (fp, ep) eps -> dict_get ep pk = Some m -> (forall mk, m <> VDict mk) ->
    exists m', (forall mk, m' <> VDict mk) /\
      snd (validate_loop sch eps errs st)
      = Raise (AttributeError ("'" ++ type_name m' ++ "' object has no attribute 'keys'")).
Proof.
  intros Hp. induction eps as [|[fp0 ep0] rest IH]; intros errs st fp ep m Hin Hm Hnot;
    [destruct Hin|].
  assert (Hrest : (fp0, ep0) <> (fp, ep) -> In (fp, ep) rest).
  { intros Hne. destruct Hin as [Heq|Hin]; [contradiction | exact Hin]. }
  rewrite validate_loop_cons. unfold record_step. rewrite Hp. simpl py_contains.
  destruct (existsb _ pk) eqn:Hc.
  - destruct (contains_dict_get _ _ Hc) as [m0 Hm0]. simpl py_getitem. rewrite Hm0.
    destruct (dict_or_not m0) as [[mk ->]|Hnd].
    + assert (Hin' : In (fp, ep) rest).
      { apply Hrest. intros Heq. injection Heq as -> ->. rewrite Hm in Hm0.
        injection Hm0 as ->. eapply Hnot; reflexivity. }
      simpl py_keys. cbv beta iota.
      match goal with |- context [existsb ?f (map fst mk)] => destruct (existsb f (map fst mk)) end;
        eapply IH; eauto.
    + exists m0. split; [exact Hnd|].
      destruct m0; try reflexivity. exfalso; eapply Hnd; reflexivity.
  - assert (Hin' : In (fp, ep) rest).
    { apply Hrest. intros Heq. injection Heq as -> ->.
      rewrite (dict_get_contains _ _ _ Hm) in Hc. discriminate. }
    eapply IH; eauto.
Qed.

(** The exception raised at a path whose method entry is not a mapping. *)
Lemma validate_on_method_entry_not_mapping (v : validator) kvs pk fp ep rest m :
  schema v = VDict kvs -> dict_get "paths" kvs = Some (VDict pk) ->
  endpoints v = (fp, ep) :: rest -> dict_get ep pk = Some m -> (forall mk, m <> VDict mk) ->
  validate_on v = Raise (AttributeError ("'" ++ type_name m ++ "' object has no attribute 'keys'")).
Proof.
  intros Hs Hp He Hm Hnot.
  rewrite validate_on_paths; rewrite ?Hs.
  - rewrite He, validate_loop_cons. unfold record_step.
    rewrite (py_getitem_dict _ _ _ Hp), (py_contains_dict_get _ _ _ Hm), (py_getitem_dict _ _ _ Hm).
    destruct m; try reflexivity. exfalso; eapply Hnot; reflexivity.
  - eapply dict_get_truthy; eauto.
  - eapply py_contains_dict_get; eauto.
Qed.

(** Every non-empty mapping without [paths] gives the single error, whatever
    the records. *)
Lemma validate_nonempty_mapping_without_paths (v : validator) kvs :
  schema v = VDict kvs -> kvs <> [] -> dict_get "paths" kvs = None ->
  validate_on v = Ok ["No paths defined in schema"].
Proof.
  intros Hs Hne Hp. apply validate_on_no_paths; rewrite Hs.
  - destruct kvs; [congruence | reflexivity].
  - simpl. rewrite (dict_get_not_contains _ _ Hp). reflexivity.
Qed.

(** Example documents. *)
Definition doc_users_get : value :=
  VDict [(VStr "paths", VDict [(VStr "/users", VDict [(VStr "get", VDict [])])])].
Definition doc_empty_paths : value := VDict [(VStr "paths", VDict [])].
Definition doc_users_null : value := VDict [(VStr "paths", VDict [(VStr "/users", VNone)])].

(** ** C1 *)

(** C1 (at the failing input): the mapping [{}] lacks [paths], yet
    [validate_endpoints] answers that the schema is not loaded instead of
    ["No paths defined in schema"]. *)
Theorem validate_empty_mapping_reports_not_loaded :
  validate_on (mkValidator "." "schema.json" [("a.py", "/users")] (VDict []))
  = Ok ["Schema not loaded."].
Proof. reflexivity. Qed.

(** ** C3 *)

(** C3 (amended): [validate_endpoints] returns normally whenever the schema
    is falsy, or a mapping without [paths], or a mapping whose [paths] is a
    mapping sending every path named by an endpoint record to a mapping; and
    when [paths] is a mapping and some record names a path whose entry is
    not a mapping (null, a scalar, a list, ...), it raises [AttributeError]
    on [.keys()] of such an entry. *)
Theorem validate_total_on_shaped_schemas (v : validator) :
  (shaped v -> exists errs, validate_on v = Ok errs) /\
  (forall kvs pk fp ep m,
     schema v = VDict kvs -> dict_get "paths" kvs = Some (VDict pk) ->
     In (fp, ep) (endpoints v) -> dict_get ep pk = Some m -> (forall mk, m <> VDict mk) ->
     exists m', (forall mk, m' <> VDict mk) /\
       validate_on v = Raise (AttributeError ("'" ++ type_name m' ++ "' object has no attribute 'keys'"))).
Proof.
  split.
  - intros [Hf|[[kvs [Hs Hp]]|[kvs [pk [Hs [Hp Hsh]]]]]].
    + rewrite validate_on_falsy by exact Hf. eauto.
    + destruct (truthy (schema v)) eqn:Ht.
      * rewrite validate_on_no_paths; [eauto|exact Ht|].
        rewrite Hs. simpl. rewrite (dict_get_not_contains _ _ Hp). reflexivity.
      * rewrite validate_on_falsy by exact Ht. eauto.
    + rewrite validate_on_paths; rewrite ?Hs.
      * apply (validate_loop_total _ pk); [apply py_getitem_dict; exact Hp | exact Hsh].
      * eapply dict_get_truthy; eauto.
      * eapply py_contains_dict_get; eauto.
  - intros kvs pk fp ep m Hs Hp Hin Hm Hnot.
    rewrite validate_on_paths; rewrite ?Hs.
    + eapply (validate_loop_raises_attr _ pk); eauto. apply py_getitem_dict; exact Hp.
    + eapply dict_get_truthy; eauto.
    + eapply py_contains_dict_get; eauto.
Qed.

Lemma validate_total_on_shaped_schemas_witness :
  shaped (mkValidator "." "schema.json" [("./app.py", "/users"); ("./app.py", "/items")] doc_users_get)
  /\ (exists errs, validate_on (mkValidator "." "schema.json" [("./app.py", "/users"); ("./app.py", "/items")] doc_users_get) = Ok errs)
  /\ exists m', (forall mk, m' <> VDict mk) /\
       validate_on (mkValidator "." "schema.yaml" [("./app.py", "/items"); ("./app.py", "/users")] doc_users_null)
       = Raise (AttributeError ("'" ++ type_name m' ++ "' object has no attribute 'keys'")).
Proof.
  assert (H : shaped (mkValidator "." "schema.json" [("./app.py", "/users"); ("./app.py", "/items")] doc_users_get)).
  { right; right. exists [(VStr "paths", VDict [(VStr "/users", VDict [(VStr "get", VDict [])])])].
    exists [(VStr "/users", VDict [(VStr "get", VDict [])])].
    split; [reflexivity|]. split; [reflexivity|].
    intros fp ep m _ Hm. simpl in Hm.
    destruct (String.eqb ep "/users"); [injection Hm as <-; eauto | discriminate]. }
  split; [exact H|]. split; [apply (proj1 (validate_total_on_shaped_schemas _) H)|].
  apply (proj2 (validate_total_on_shaped_schemas
                  (mkValidator "." "schema.yaml" [("./app.py", "/items"); ("./app.py", "/users")] doc_users_null))
           [(VStr "paths", VDict [(VStr "/users", VNone)])] [(VStr "/users", VNone)]
           "./app.py" "/users" VNone);
    [reflexivity | reflexivity | right; left; reflexivity | reflexivity | intros mk Hmk; discriminate Hmk].
Defined.

(** C3 counterexample: a path of [paths] whose method entry is null (the
    YAML [/users:] with nothing under it) makes [validate_endpoints] raise. *)
Lemma validate_raises_on_null_method_entry :
  validate_on (mkValidator "." "schema.yaml" [("./app.py", "/users")] doc_users_null)
  = Raise (AttributeError "'NoneType' object has no attribute 'keys'").
Proof. reflexivity. Qed.

(** ** C4 *)

(** C4: for a mapping schema with a [paths] key, every list of errors
    [validate_endpoints] returns is the concatenation, in record order, of
    one contribution per record: the not-found message when the path is not
    in [paths], the no-methods message when its method mapping has none of
    the seven lowercase method names, and nothing otherwise; hence at most
    one error per record. *)
Theorem validate_at_most_one_error_per_record (v : validator) kvs paths errs :
  schema v = VDict kvs -> dict_get "paths" kvs = Some paths -> validate_on v = Ok errs ->
  (length errs <= length (endpoints v))%nat /\
  exists per, errs = concat per /\
    Forall2 (fun r e => record_error paths (fst r) (snd r) e) (endpoints v) per.
Proof.
  intros Hs Hp Hv.
  rewrite validate_on_paths in Hv; rewrite ?Hs in *.
  - destruct (validate_loop_records _ paths _ (py_getitem_dict _ _ _ Hp) _ _ _ Hv) as [per [-> Hper]].
    split.
    + eapply concat_length_le; [|exact Hper]. intros [fp ep] e. apply record_error_length.
    + exists per. auto.
  - eapply dict_get_truthy; eauto.
  - eapply py_contains_dict_get; eauto.
Qed.

Lemma validate_at_most_one_error_per_record_witness :
  let v := mkValidator "." "schema.json"
             [("./app.py", "/users"); ("./app.py", "/items")] doc_users_get in
  schema v = doc_users_get /\
  validate_on v = Ok [not_found_msg "/items" "./app.py"] /\
  (length [not_found_msg "/items" "./app.py"] <= length (endpoints v))%nat /\
  exists per, [not_found_msg "/items" "./app.py"] = concat per /\
    Forall2 (fun r e => record_error (VDict [(VStr "/users", VDict [(VStr "get", VDict [])])])
                          (fst r) (snd r) e) (endpoints v) per.
Proof.
  intros v. split; [reflexivity|]. split; [reflexivity|].
  apply (validate_at_most_one_error_per_record v
           [(VStr "paths", VDict [(VStr "/users", VDict [(VStr "get", VDict [])])])]
           (VDict [(VStr "/users", VDict [(VStr "get", VDict [])])])
           [not_found_msg "/items" "./app.py"]); reflexivity.
Defined.

(** ** C5 *)

(** C5: before any schema is loaded ([self.schema] is [None]),
    [validate_endpoints] returns the single error ["Schema not loaded."]
    and raises nothing, whatever the records. *)
Theorem validate_before_load (cp sp : string) (eps : list (string * string)) :
  validate_on (mkValidator cp sp eps VNone) = Ok ["Schema not loaded."].
Proof. apply validate_on_falsy. reflexivity. Qed.

(** ** Auxiliary facts on [load_schema] *)

Ltac unfold_st :=
  unfold bind, get_self, put_self, emit, log, lift, raise, ret in *.

Ltac split_matches H :=
  repeat match type of H with
         | context [match ?x with _ => _ end] => destruct x eqn:?
         end.

(** [load_schema] opens the schema file and nothing else, changes only
    [self.schema], and keeps it when it raises; what it raises is an
    [Exception]. *)
Lemma load_schema_effect y j w v tr st' o :
  load_schema y j w (mkState v tr) = (st', o) ->
  code_path (self st') = code_path v /\ schema_path (self st') = schema_path v /\
  endpoints (self st') = endpoints v /\
  (forall e, o = Raise e -> schema (self st') = schema v /\ is_Exception e = true) /\
  exists logs, trace st' = (tr ++ EOpen (schema_path v) :: logs)%list /\
    forall p, ~ In (EOpen p) logs.
Proof.
  unfold load_schema, try_except, load_schema_body, py_open, py_read, set_schema,
    parse_yaml, parse_json.
  unfold_st. cbn [self trace schema_path].
  destruct (fs_lookup (schema_path v) (files w)) as [[c|msg|[|] msg]|];
  destruct (endswith (schema_path v) ".yaml"); destruct (endswith (schema_path v) ".yml");
  destruct (endswith (schema_path v) ".json");
  try destruct (y c); try destruct (j c);
  cbn; intros H; injection H as <- <-; cbn [self trace code_path schema_path endpoints schema];
  (split; [reflexivity|]); (split; [reflexivity|]); (split; [reflexivity|]);
  (split; [intros ? He; try discriminate; injection He as <-; split; reflexivity|]);
  eexists; (split; [rewrite <- ?app_assoc; reflexivity|]);
  simpl; intros p Hp; repeat (destruct Hp as [Hp|Hp]; [discriminate|]); exact Hp.
Qed.

(** ** Auxiliary facts on [find_endpoints] *)

Definition with_endpoints (v : validator) (eps : list (string * string)) : validator :=
  mkValidator (code_path v) (schema_path v) eps (schema v).

(** [m] succeeds from every state, extending [self.endpoints] by [found]
    and touching nothing else of [self]. *)
Definition appends (m : ST unit) (found : list (string * string)) : Prop :=
  forall v tr, exists tr',
    m (mkState v tr) = (mkState (with_endpoints v (endpoints v ++ found)) tr', Ok tt).

(** [m] raises an [Exception] from every state, keeping the other fields. *)
Definition raises (m : ST unit) : Prop :=
  forall v tr, exists v' tr' e,
    m (mkState v tr) = (mkState v' tr', Raise e) /\ is_Exception e = true /\
    code_path v' = code_path v /\ schema_path v' = schema_path v /\ schema v' = schema v.

Definition appends_or_raises (m : ST unit) : Prop :=
  (exists found, appends m found) \/ raises m.

Lemma with_endpoints_nil (v : validator) : with_endpoints v (endpoints v ++ []) = v.
Proof. destruct v. unfold with_endpoints. simpl. rewrite app_nil_r. reflexivity. Qed.

Lemma appends_ret : appends (ret tt) [].
Proof. intros v tr. exists tr. rewrite with_endpoints_nil. reflexivity. Qed.

Lemma appends_bind (m1 m2 : ST unit) f1 f2 :
  appends m1 f1 -> appends m2 f2 -> appends (let* _ := m1 in m2) (f1 ++ f2).
Proof.
  intros H1 H2 v tr. destruct (H1 v tr) as [tr1 E1]. unfold bind. rewrite E1.
  destruct (H2 (with_endpoints v (endpoints v ++ f1)) tr1) as [tr2 E2]. rewrite E2.
  exists tr2. unfold with_endpoints. simpl. rewrite app_assoc. reflexivity.
Qed.

Lemma raises_bind_l (m1 : ST unit) (k : unit -> ST unit) :
  raises m1 -> raises (let* x := m1 in k x).
Proof.
  intros H v tr. destruct (H v tr) as [v' [tr' [e [E [He Hf]]]]].
  exists v', tr', e. unfold bind. rewrite E. auto.
Qed.

Lemma raises_bind_r (m1 m2 : ST unit) f1 :
  appends m1 f1 -> raises m2 -> raises (let* _ := m1 in m2).
Proof.
  intros H1 H2 v tr. destruct (H1 v tr) as [tr1 E1]. unfold bind. rewrite E1.
  destruct (H2 (with_endpoints v (endpoints v ++ f1)) tr1) as [v' [tr' [e [E [He [Hc [Hs Hsc]]]]]]].
  exists v', tr', e. rewrite E. auto.
Qed.

Lemma appends_or_raises_bind (m1 m2 : ST unit) :
  appends_or_raises m1 -> appends_or_raises m2 -> appends_or_raises (let* _ := m1 in m2).
Proof.
  intros [[f1 H1]|H1] [[f2 H2]|H2].
  - left. exists (f1 ++ f2)%list. apply appends_bind; assumption.
  - right. eapply raises_bind_r; eassumption.
  - right. apply raises_bind_l. exact H1.
  - right. apply raises_bind_l. exact H1.
Qed.

Lemma for_each_appends_or_raises {A} (l : list A) (body : A -> ST unit) :
  (forall x, In x l -> appends_or_raises (body x)) -> appends_or_raises (for_each l body).
Proof.
  induction l as [|x rest IH]; intros H; simpl.
  - left. exists []. apply appends_ret.
  - apply appends_or_raises_bind; [apply H; left; reflexivity|].
    apply IH. intros; apply H; right; assumption.
Qed.

(** A loop one of whose iterations raises from every state raises. *)
Lemma for_each_raises {A} (l : list A) (body : A -> ST unit) (x : A) :
  (forall y, In y l -> appends_or_raises (body y)) -> In x l -> raises (body x) ->
  raises (for_each l body).
Proof.
  induction l as [|y rest IH]; intros Hall Hin Hx; [destruct Hin|].
  simpl. destruct Hin as [<-|Hin].
  - apply raises_bind_l. exact Hx.
  - destruct (Hall y (or_introl eq_refl)) as [[f Hy]|Hy].
    + eapply raises_bind_r; [exact Hy|]. apply IH; auto. intros; apply Hall; right; assumption.
    + apply raises_bind_l. exact Hy.
Qed.

Definition unreadable (w : world) (p : string) : Prop :=
  match fs_lookup p (files w) with
  | Some (FText _) => False
  | _ => True
  end.

Lemma scan_file_raises w root file :
  endswith file ".py" = true -> unreadable w (path_join root file) -> raises (scan_file w root file).
Proof.
  intros Hpy Hu v tr. unfold unreadable in Hu. unfold scan_file. rewrite Hpy.
  unfold py_open, py_read. unfold_st. cbn [self trace].
  destruct (fs_lookup (path_join root file) (files w)) as [[c|msg|[|] msg]|];
    [destruct Hu| | | |]; do 3 eexists; (split; [reflexivity|]); auto.
Qed.

Lemma scan_file_appends_or_raises w root file : appends_or_raises (scan_file w root file).
Proof.
  destruct (endswith file ".py") eqn:Hpy.
  - destruct (fs_lookup (path_join root file) (files w)) as [[c|msg|dec msg]|] eqn:Hf.
    + left. eexists. intros v tr. unfold scan_file. rewrite Hpy.
      unfold py_open, py_read, extend_endpoints. unfold_st.
      cbn [self trace]. rewrite Hf. eexists. reflexivity.
    + right. apply scan_file_raises; [exact Hpy|]. unfold unreadable. rewrite Hf. exact I.
    + right. apply scan_file_raises; [exact Hpy|]. unfold unreadable. rewrite Hf. exact I.
    + right. apply scan_file_raises; [exact Hpy|]. unfold unreadable. rewrite Hf. exact I.
  - left. exists []. unfold scan_file. rewrite Hpy. apply appends_ret.
Qed.

Definition scan_tree (w : world) (cp : string) : ST unit :=
  for_each (walk w cp) (fun '(root, _, fs) => for_each fs (scan_file w root)).

Lemma scan_tree_appends_or_raises w cp : appends_or_raises (scan_tree w cp).
Proof.
  apply for_each_appends_or_raises. intros [[root dirs] fs] _.
  apply for_each_appends_or_raises. intros; apply scan_file_appends_or_raises.
Qed.

Lemma find_endpoints_unfold w v tr :
  find_endpoints w (mkState v tr)
  = try_except (scan_tree w (code_path v))
      (fun e => if is_Exception e then
                  let* _ := log ERROR ("Error finding endpoints: " ++ exn_str e) in raise e
                else raise e) (mkState v tr).
Proof. reflexivity. Qed.

Lemma find_endpoints_of_appends w cp found :
  appends (scan_tree w cp) found ->
  forall v tr, code_path v = cp -> exists tr',
    find_endpoints w (mkState v tr) = (mkState (with_endpoints v (endpoints v ++ found)) tr', Ok tt).
Proof.
  intros H v tr Hcp. rewrite find_endpoints_unfold, Hcp. unfold try_except.
  destruct (H v tr) as [tr' E]. rewrite E. eauto.
Qed.

Lemma find_endpoints_of_raises w cp :
  raises (scan_tree w cp) ->
  forall v tr, code_path v = cp -> exists v' tr' e,
    find_endpoints w (mkState v tr) = (mkState v' tr', Raise e) /\ is_Exception e = true /\
    code_path v' = code_path v /\ schema_path v' = schema_path v /\ schema v' = schema v.
Proof.
  intros H v tr Hcp. subst cp. rewrite find_endpoints_unfold. unfold try_except.
  destruct (H v tr) as [v' [tr' [e [E [He Hf]]]]]. rewrite E, He.
  exists v', (tr' ++ [ELog ERROR ("Error finding endpoints: " ++ exn_str e)])%list, e.
  unfold bind, log, emit, raise. split; [reflexivity|auto].
Qed.

(** [m] performed [n] times in a row on the same object. *)
Fixpoint call_n (n : nat) (m : ST unit) : ST unit :=
  match n with
  | O => ret tt
  | S k => let* _ := m in call_n k m
  end.

Lemma call_n_appends (cp : string) (m : ST unit) found :
  (forall v tr, code_path v = cp -> exists tr',
     m (mkState v tr) = (mkState (with_endpoints v (endpoints v ++ found)) tr', Ok tt)) ->
  forall n v tr, code_path v = cp -> exists tr',
    call_n n m (mkState v tr)
    = (mkState (with_endpoints v (endpoints v ++ concat (repeat found n))) tr', Ok tt).
Proof.
  intros Hm n. induction n as [|k IH]; intros v tr Hcp.
  - exists tr. simpl. rewrite with_endpoints_nil. reflexivity.
  - simpl call_n. unfold bind. destruct (Hm v tr Hcp) as [tr1 E1]. rewrite E1.
    destruct (IH (with_endpoints v (endpoints v ++ found)) tr1 Hcp) as [tr2 E2]. rewrite E2.
    exists tr2. unfold with_endpoints. simpl. rewrite app_assoc. reflexivity.
Qed.

Lemma validate_loop_app (sch : value) (e1 e2 : list (string * string)) st :
  snd (validate_loop sch (e1 ++ e2) [] st)
  = match snd (validate_loop sch e1 [] st) with
    | Ok r1 => omap (app r1) (snd (validate_loop sch e2 [] st))
    | Raise x => Raise x
    end.
Proof.
  revert st. induction e1 as [|[fp ep] rest IH]; intros st.
  - simpl. destruct (snd (validate_loop sch e2 [] st)); reflexivity.
  - rewrite <- app_comm_cons, !validate_loop_cons.
    destruct (record_step sch fp ep) as [e|x]; [|reflexivity].
    rewrite !(validate_loop_acc sch _ ([] ++ e)%list), IH.
    destruct (snd (validate_loop sch rest [] st)) as [r|x]; simpl; [|reflexivity].
    destruct (snd (validate_loop sch e2 [] st)); simpl; [rewrite app_assoc|]; reflexivity.
Qed.

Lemma validate_loop_repeat (sch : value) (eps : list (string * string)) errs st :
  snd (validate_loop sch eps [] st) = Ok errs ->
  forall n, snd (validate_loop sch (concat (repeat eps n)) [] st) = Ok (concat (repeat errs n)).
Proof.
  intros H n. induction n as [|k IH]; [reflexivity|].
  simpl. rewrite validate_loop_app, H, IH. reflexivity.
Qed.

(** ** Auxiliary facts on [main] *)

Lemma main_when_load_or_scan_raises y j w cp sp st2 e :
  (let* _ := load_schema y j w in find_endpoints w) (mkState (mkValidator cp sp [] VNone) [])
    = (st2, Raise e) ->
  is_Exception e = true ->
  main y j w cp sp
  = (1%Z, (trace st2 ++ [ELog CRITICAL ("An unexpected error occurred: " ++ exn_str e)])%list).
Proof.
  intros H He. unfold main, main_body. unfold bind in *.
  destruct (load_schema y j w _) as [st1 [[]|e1]].
  - destruct (find_endpoints w st1) as [st2' [[]|e2]]; [discriminate|].
    injection H as -> ->. destruct e; try discriminate; reflexivity.
  - injection H as -> ->. destruct e; try discriminate; reflexivity.
Qed.

Lemma for_each_log_ok (msgs : list string) st :
  exists st', for_each msgs (log ERROR) st = (st', Ok tt).
Proof.
  revert st. induction msgs as [|m rest IH]; intros st; simpl.
  - exists st. reflexivity.
  - unfold bind, log, emit. apply IH.
Qed.

Lemma main_when_errors y j w cp sp st1 st2 errs :
  load_schema y j w (mkState (mkValidator cp sp [] VNone) []) = (st1, Ok tt) ->
  find_endpoints w st1 = (st2, Ok tt) ->
  validate_on (self st2) = Ok errs -> errs <> [] ->
  fst (main y j w cp sp) = 1%Z.
Proof.
  intros H1 H2 H3 Hne. unfold main, main_body, bind. rewrite H1, H2.
  rewrite <- validate_endpoints_snd in H3.
  destruct (validate_endpoints st2) as [st3 o] eqn:E3. simpl in H3. subst o.
  destruct errs as [|m rest]; [congruence|].
  unfold bind, log, emit.
  destruct (for_each_log_ok (m :: rest) {| self := self st3;
          trace := trace st3 ++ [ELog ERROR "API Endpoint Validation Failed:"] |}) as [st4 E4].
  unfold log, emit in E4. rewrite E4. reflexivity.
Qed.

Lemma find_endpoints_ok w v tr st' :
  find_endpoints w (mkState v tr) = (st', Ok tt) ->
  exists found, appends (scan_tree w (code_path v)) found /\
    self st' = with_endpoints v (endpoints v ++ found).
Proof.
  intros H. destruct (scan_tree_appends_or_raises w (code_path v)) as [[f Hf]|Hr].
  - destruct (find_endpoints_of_appends w _ f Hf v tr eq_refl) as [tr' E].
    rewrite E in H. injection H as <-. eauto.
  - destruct (find_endpoints_of_raises w _ Hr v tr eq_refl) as [v' [tr' [e [E _]]]].
    congruence.
Qed.

Lemma validate_loop_empty_paths (eps : list (string * string)) errs st :
  snd (validate_loop doc_empty_paths eps errs st)
  = Ok (errs ++ map (fun r => not_found_msg (snd r) (fst r)) eps)%list.
Proof.
  revert errs st. induction eps as [|[fp ep] rest IH]; intros errs st.
  - simpl. rewrite app_nil_r. reflexivity.
  - rewrite validate_loop_cons.
    replace (record_step doc_empty_paths fp ep) with (Ok [not_found_msg ep fp]) by reflexivity.
    rewrite IH, <- app_assoc. reflexivity.
Qed.

Lemma validate_loop_paths_ext (s1 s2 : value) :
  py_getitem s1 "paths" = py_getitem s2 "paths" ->
  forall eps errs st, snd (validate_loop s1 eps errs st) = snd (validate_loop s2 eps errs st).
Proof.
  intros Hp eps. induction eps as [|[fp ep] rest IH]; intros errs st; [reflexivity|].
  rewrite !validate_loop_cons. unfold record_step. rewrite Hp.
  destruct (py_getitem s2 "paths") as [p|x]; [|reflexivity].
  destruct (py_contains ep p) as [[|]|x]; try reflexivity.
  - destruct (py_getitem p ep) as [m|x]; [|reflexivity].
    destruct (py_keys m) as [ms|x]; [|reflexivity].
    destruct (existsb _ ms); apply IH.
  - apply IH.
Qed.

(** ** Demonstration inputs *)

Definition q (s : string) : string := String dquote (s ++ String dquote EmptyString).
Definition nl : string := String newline EmptyString.

Definition demo_app_py : string :=
  "from flask import Flask" ++ nl ++ "app = Flask(__name__)" ++ nl ++
  "@app.route('/users')" ++ nl ++ "def users():" ++ nl ++ "    return []" ++ nl.

Definition demo_yaml_text : string :=
  "paths:" ++ nl ++ "  /users:" ++ nl ++ "    get: {}" ++ nl.
Definition demo_json_text : string :=
  "{" ++ q "paths" ++ ": {" ++ q "/users" ++ ": {" ++ q "get" ++ ": {}}}}".
Definition demo_empty_paths_json : string := "{" ++ q "paths" ++ ": {}}".
Definition demo_empty_json : string := "{}".

(** Parsers agreeing with [yaml.safe_load] and [json.loads] on the
    demonstration texts. *)
Definition demo_yaml (c : string) : value + string :=
  if String.eqb c demo_yaml_text then inl doc_users_get
  else inr "while parsing a block mapping".
Definition demo_json (c : string) : value + string :=
  if String.eqb c demo_json_text then inl doc_users_get
  else if String.eqb c demo_empty_paths_json then inl doc_empty_paths
  else if String.eqb c demo_empty_json then inl (VDict [])
  else inr "Expecting value: line 1 column 1 (char 0)".

(** [os.walk(top)] over a directory holding [app.py] and [notes.txt]. *)
Definition demo_walk (top : string) : list (string * list string * list string) :=
  [(top, [], ["app.py"; "notes.txt"])].

Definition demo_world : world :=
  mkWorld [("schema.yaml", FText demo_yaml_text); ("schema.json", FText demo_json_text);
           ("empty_paths.json", FText demo_empty_paths_json); ("empty.json", FText demo_empty_json);
           ("schema.txt", FText "paths: {}"); ("./app.py", FText demo_app_py);
           ("./notes.txt", FText "todo")]
          demo_walk.

Definition init_state (cp sp : string) : pystate := mkState (mkValidator cp sp [] VNone) [].

Example demo_main_passes : fst (main demo_yaml demo_json demo_world "." "schema.yaml") = 0%Z.
Proof. reflexivity. Qed.

(** ** C2 *)

(** C2 counterexample: with [{paths: {}}] and the record [("a.py", "/users")]
    the single error is the not-found message, not
    ["No paths defined in schema"]. *)
Lemma scenario_B_counterexample :
  validate_on (mkValidator "." "schema.json" [("a.py", "/users")] doc_empty_paths)
  <> Ok ["No paths defined in schema"].
Proof. vm_compute. congruence. Qed.

(** C2 (amended): with [{paths: {}}] the record [("a.py", "/users")] yields
    exactly the error "Endpoint '/users' (defined in a.py) not found in
    schema."; and a run whose schema loads as [{paths: {}}] and whose scan
    finds an endpoint exits with status 1. *)
Theorem scenario_B_not_found_exit_1 y j w cp sp st1 st2 :
  load_schema y j w (init_state cp sp) = (st1, Ok tt) ->
  schema (self st1) = doc_empty_paths ->
  find_endpoints w st1 = (st2, Ok tt) ->
  endpoints (self st2) <> [] ->
  validate_on (mkValidator "." "schema.json" [("a.py", "/users")] doc_empty_paths)
    = Ok ["Endpoint '/users' (defined in a.py) not found in schema."] /\
  fst (main y j w cp sp) = 1%Z.
Proof.
  intros H1 Hs H2 Hne. split; [reflexivity|].
  destruct st1 as [v1 tr1].
  destruct (find_endpoints_ok w v1 tr1 st2 H2) as [found [_ Hst2]].
  eapply (main_when_errors y j w cp sp (mkState v1 tr1) st2); [exact H1 | exact H2 | |].
  - rewrite validate_on_paths; rewrite Hst2; simpl in Hs |- *; rewrite ?Hs; try reflexivity.
    apply validate_loop_empty_paths.
  - rewrite Hst2 in Hne. simpl in Hne.
    destruct (endpoints v1 ++ found)%list as [|[fp ep] rest]; [congruence|]. discriminate.
Qed.

Lemma scenario_B_not_found_exit_1_witness :
  exists st1 st2,
    load_schema demo_yaml demo_json demo_world (init_state "." "empty_paths.json") = (st1, Ok tt) /\
    schema (self st1) = doc_empty_paths /\
    find_endpoints demo_world st1 = (st2, Ok tt) /\
    endpoints (self st2) <> [] /\
    validate_on (mkValidator "." "schema.json" [("a.py", "/users")] doc_empty_paths)
      = Ok ["Endpoint '/users' (defined in a.py) not found in schema."] /\
    fst (main demo_yaml demo_json demo_world "." "empty_paths.json") = 1%Z.
Proof.
  do 2 eexists.
  assert (H1 : load_schema demo_yaml demo_json demo_world (init_state "." "empty_paths.json")
               = (fst (load_schema demo_yaml demo_json demo_world (init_state "." "empty_paths.json")), Ok tt))
    by reflexivity.
  assert (H2 : find_endpoints demo_world (fst (load_schema demo_yaml demo_json demo_world (init_state "." "empty_paths.json")))
               = (fst (find_endpoints demo_world (fst (load_schema demo_yaml demo_json demo_world (init_state "." "empty_paths.json")))), Ok tt))
    by reflexivity.
  assert (Hs : schema (self (fst (load_schema demo_yaml demo_json demo_world (init_state "." "empty_paths.json")))) = doc_empty_paths)
    by reflexivity.
  assert (Hne : endpoints (self (fst (find_endpoints demo_world (fst (load_schema demo_yaml demo_json demo_world (init_state "." "empty_paths.json")))))) <> [])
    by (vm_compute; discriminate).
  split; [exact H1|]. split; [exact Hs|]. split; [exact H2|]. split; [exact Hne|].
  exact (scenario_B_not_found_exit_1 demo_yaml demo_json demo_world "." "empty_paths.json" _ _ H1 Hs H2 Hne).
Defined.

(** ** C6 *)

(** C6 (amended): [load_schema] raises [FileNotFoundError] when the file
    does not exist, whatever its extension; [ValueError] (unsupported
    format) when the file opens but its name ends in none of [.yaml], [.yml],
    [.json]; the parser's [yaml.YAMLError] or [json.JSONDecodeError],
    diagnostic unchanged, when the text is not well-formed.  In each case
    [self.schema] is left as it was; and when loading fails, [main] exits
    with status 1 having opened no file but the schema file, so no scanning
    or validation happens. *)
Theorem load_schema_failure_modes y j w v tr :
  (fs_lookup (schema_path v) (files w) = None ->
   exists st', load_schema y j w (mkState v tr) = (st', Raise (FileNotFoundError (schema_path v)))
     /\ schema (self st') = schema v) /\
  (forall f, fs_lookup (schema_path v) (files w) = Some f -> (forall msg, f <> FNoOpen msg) ->
   endswith (schema_path v) ".yaml" || endswith (schema_path v) ".yml" = false ->
   endswith (schema_path v) ".json" = false ->
   exists st', load_schema y j w (mkState v tr)
     = (st', Raise (ValueError "Unsupported schema file format. Only YAML and JSON are supported."))
     /\ schema (self st') = schema v) /\
  (forall c m, fs_lookup (schema_path v) (files w) = Some (FText c) ->
   endswith (schema_path v) ".yaml" || endswith (schema_path v) ".yml" = true ->
   y c = inr m ->
   exists st', load_schema y j w (mkState v tr) = (st', Raise (YAMLError m)) /\ schema (self st') = schema v) /\
  (forall c m, fs_lookup (schema_path v) (files w) = Some (FText c) ->
   endswith (schema_path v) ".yaml" || endswith (schema_path v) ".yml" = false ->
   endswith (schema_path v) ".json" = true ->
   j c = inr m ->
   exists st', load_schema y j w (mkState v tr) = (st', Raise (JSONDecodeError m)) /\ schema (self st') = schema v) /\
  (forall cp sp st' e, load_schema y j w (init_state cp sp) = (st', Raise e) ->
   main y j w cp sp
     = (1%Z, (trace st' ++ [ELog CRITICAL ("An unexpected error occurred: " ++ exn_str e)])%list) /\
   forall p, In (EOpen p) (snd (main y j w cp sp)) -> p = sp).
Proof.
  split; [|split; [|split; [|split]]];
    [unfold load_schema, try_except, load_schema_body, py_open, py_read, set_schema,
       parse_yaml, parse_json;
     unfold_st; cbn beta iota zeta delta [self trace schema_path] ..|].
  - intros Hf. rewrite Hf. eexists; split; reflexivity.
  - intros f Hf Hno Hy Hj. rewrite Hf, Hy, Hj.
    destruct f as [c|msg|dec msg]; [| exfalso; eapply Hno; reflexivity |];
      eexists; split; reflexivity.
  - intros c m Hf Hy Hp. rewrite Hf, Hy. cbn beta iota. rewrite Hp. eexists; split; reflexivity.
  - intros c m Hf Hy Hj Hp. rewrite Hf, Hy, Hj. cbn beta iota. rewrite Hp. eexists; split; reflexivity.
  - intros cp sp st' e H.
    destruct (load_schema_effect y j w _ _ st' (Raise e) H) as [_ [_ [_ [Hr [logs [Htr Hlogs]]]]]].
    destruct (Hr e eq_refl) as [_ He].
    assert (Hm : main y j w cp sp
                 = (1%Z, (trace st' ++ [ELog CRITICAL ("An unexpected error occurred: " ++ exn_str e)])%list)).
    { apply main_when_load_or_scan_raises; [|exact He]. unfold bind, init_state in *. rewrite H. reflexivity. }
    split; [exact Hm|]. rewrite Hm, Htr. simpl. intros p [Hp|Hp]; [injection Hp as ->; reflexivity|].
    apply in_app_or in Hp. destruct Hp as [Hp|[Hp|[]]]; [exfalso; eapply Hlogs; eauto|discriminate].
Qed.

Lemma load_schema_failure_modes_witness :
  exists st', load_schema demo_yaml demo_json demo_world (init_state "." "schema.txt")
    = (st', Raise (ValueError "Unsupported schema file format. Only YAML and JSON are supported."))
    /\ schema (self st') = VNone.
Proof.
  destruct (load_schema_failure_modes demo_yaml demo_json demo_world
              (mkValidator "." "schema.txt" [] VNone) []) as [_ [H _]].
  apply (H (FText "paths: {}")); [reflexivity | intros msg; discriminate | reflexivity | reflexivity].
Defined.

(** C6 counterexample: for a schema path with the unsupported extension
    [.txt] that does not exist, [load_schema] raises [FileNotFoundError],
    not the unsupported-format error: the file is opened before its
    extension is examined. *)
Lemma missing_txt_schema_raises_not_found :
  snd (load_schema demo_yaml demo_json demo_world (init_state "." "missing.txt"))
    = Raise (FileNotFoundError "missing.txt") /\
  forall m, snd (load_schema demo_yaml demo_json demo_world (init_state "." "missing.txt"))
    <> Raise (ValueError m).
Proof. split; [reflexivity | intros m; vm_compute; discriminate]. Qed.

Example txt_schema_run :
  main demo_yaml demo_json demo_world "." "schema.txt"
  = (1%Z, [EOpen "schema.txt";
           ELog ERROR "Error loading schema: Unsupported schema file format. Only YAML and JSON are supported.";
           ELog CRITICAL "An unexpected error occurred: Unsupported schema file format. Only YAML and JSON are supported."]).
Proof. reflexivity. Qed.

(** ** C7 *)

(** C7: if a file the scan opens (one ending in [.py] met by the walk)
    cannot be opened or read, [find_endpoints] raises from every state: the
    whole scan fails, and [main] stops right after loading and scanning,
    with status 1 and no validation of any endpoint list. *)
Theorem scan_aborts_on_unreadable_py_file y j w cp sp root dirs fs file :
  In (root, dirs, fs) (walk w cp) -> In file fs -> endswith file ".py" = true ->
  unreadable w (path_join root file) ->
  (forall v tr, code_path v = cp ->
     exists v' tr' e, find_endpoints w (mkState v tr) = (mkState v' tr', Raise e)) /\
  exists st2 e,
    (let* _ := load_schema y j w in find_endpoints w) (init_state cp sp) = (st2, Raise e) /\
    main y j w cp sp
      = (1%Z, (trace st2 ++ [ELog CRITICAL ("An unexpected error occurred: " ++ exn_str e)])%list).
Proof.
  intros Hin Hf Hpy Hu.
  assert (Hr : raises (scan_tree w cp)).
  { unfold scan_tree. eapply for_each_raises; [| exact Hin |].
    - intros [[r d] f] _. apply for_each_appends_or_raises. intros; apply scan_file_appends_or_raises.
    - cbv beta iota. eapply for_each_raises; [| exact Hf |].
      + intros; apply scan_file_appends_or_raises.
      + apply scan_file_raises; assumption. }
  pose proof (find_endpoints_of_raises w cp Hr) as Hfind.
  split.
  - intros v tr Hcp. destruct (Hfind v tr Hcp) as [v' [tr' [e [E _]]]]. eauto.
  - destruct (load_schema y j w (init_state cp sp)) as [st1 o] eqn:E1.
    destruct (load_schema_effect y j w _ _ st1 o E1) as [Hcp [_ [_ [Hrs _]]]].
    destruct o as [[]|e].
    + destruct st1 as [v1 tr1]. simpl in Hcp.
      destruct (Hfind v1 tr1 Hcp) as [v' [tr' [e [E [He _]]]]].
      assert (Hb : (let* _ := load_schema y j w in find_endpoints w) (init_state cp sp)
                   = (mkState v' tr', Raise e)) by (unfold bind; rewrite E1; exact E).
      exists (mkState v' tr'), e. split; [exact Hb|].
      apply main_when_load_or_scan_raises; [exact Hb | exact He].
    + destruct (Hrs e eq_refl) as [_ He].
      assert (Hb : (let* _ := load_schema y j w in find_endpoints w) (init_state cp sp)
                   = (st1, Raise e)) by (unfold bind; rewrite E1; reflexivity).
      exists st1, e. split; [exact Hb|].
      apply main_when_load_or_scan_raises; [exact Hb | exact He].
Qed.

Definition bad_utf8_world : world :=
  mkWorld [("schema.yaml", FText demo_yaml_text);
           ("./app.py", FNoRead true "'utf-8' codec can't decode byte 0xff in position 0: invalid start byte")]
          demo_walk.

Lemma scan_aborts_on_unreadable_py_file_witness :
  In (".", [], ["app.py"; "notes.txt"]) (walk bad_utf8_world ".") /\
  In "app.py" ["app.py"; "notes.txt"] /\ endswith "app.py" ".py" = true /\
  unreadable bad_utf8_world (path_join "." "app.py") /\
  exists st2 e,
    (let* _ := load_schema demo_yaml demo_json bad_utf8_world in find_endpoints bad_utf8_world)
      (init_state "." "schema.yaml") = (st2, Raise e) /\
    main demo_yaml demo_json bad_utf8_world "." "schema.yaml"
      = (1%Z, (trace st2 ++ [ELog CRITICAL ("An unexpected error occurred: " ++ exn_str e)])%list).
Proof.
  assert (H1 : In (".", [], ["app.py"; "notes.txt"]) (walk bad_utf8_world ".")) by (left; reflexivity).
  assert (H2 : In "app.py" ["app.py"; "notes.txt"]) by (left; reflexivity).
  assert (H3 : endswith "app.py" ".py" = true) by reflexivity.
  assert (H4 : unreadable bad_utf8_world (path_join "." "app.py")) by exact I.
  split; [exact H1|]. split; [exact H2|]. split; [exact H3|]. split; [exact H4|].
  exact (proj2 (scan_aborts_on_unreadable_py_file demo_yaml demo_json bad_utf8_world "." "schema.yaml"
                  "." [] ["app.py"; "notes.txt"] "app.py" H1 H2 H3 H4)).
Defined.

(** ** C8 *)

(** C8: a schema loaded through the YAML branch and one loaded through the
    JSON branch that both map [paths] to the same document give the same
    result of [validate_endpoints] for the same endpoint records. *)
Theorem yaml_json_same_validation y j w cp yp jp eps tr1 tr2 st1 st2 kvs1 kvs2 p :
  endswith yp ".yaml" || endswith yp ".yml" = true ->
  endswith jp ".json" = true ->
  load_schema y j w (mkState (mkValidator cp yp eps VNone) tr1) = (st1, Ok tt) ->
  load_schema y j w (mkState (mkValidator cp jp eps VNone) tr2) = (st2, Ok tt) ->
  schema (self st1) = VDict kvs1 -> schema (self st2) = VDict kvs2 ->
  dict_get "paths" kvs1 = Some p -> dict_get "paths" kvs2 = Some p ->
  validate_on (self st1) = validate_on (self st2).
Proof.
  intros _ _ H1 H2 Hs1 Hs2 Hp1 Hp2.
  destruct (load_schema_effect y j w _ _ _ _ H1) as [_ [_ [He1 _]]].
  destruct (load_schema_effect y j w _ _ _ _ H2) as [_ [_ [He2 _]]].
  simpl in He1, He2.
  rewrite (validate_on_paths (self st1)), (validate_on_paths (self st2)), He1, He2;
    rewrite ?Hs1, ?Hs2.
  - erewrite validate_loop_paths_ext; [apply validate_loop_snd|].
    rewrite (py_getitem_dict _ _ _ Hp1), (py_getitem_dict _ _ _ Hp2). reflexivity.
  - eapply dict_get_truthy; eauto.
  - eapply py_contains_dict_get; eauto.
  - eapply dict_get_truthy; eauto.
  - eapply py_contains_dict_get; eauto.
Qed.

Lemma yaml_json_same_validation_witness :
  let eps := [("./app.py", "/users"); ("./app.py", "/items")] in
  exists st1 st2,
    load_schema demo_yaml demo_json demo_world (mkState (mkValidator "." "schema.yaml" eps VNone) []) = (st1, Ok tt) /\
    load_schema demo_yaml demo_json demo_world (mkState (mkValidator "." "schema.json" eps VNone) []) = (st2, Ok tt) /\
    validate_on (self st1) = validate_on (self st2).
Proof.
  intros eps. do 2 eexists.
  assert (H1 : load_schema demo_yaml demo_json demo_world (mkState (mkValidator "." "schema.yaml" eps VNone) [])
               = (fst (load_schema demo_yaml demo_json demo_world (mkState (mkValidator "." "schema.yaml" eps VNone) [])), Ok tt))
    by reflexivity.
  assert (H2 : load_schema demo_yaml demo_json demo_world (mkState (mkValidator "." "schema.json" eps VNone) [])
               = (fst (load_schema demo_yaml demo_json demo_world (mkState (mkValidator "." "schema.json" eps VNone) [])), Ok tt))
    by reflexivity.
  split; [exact H1|]. split; [exact H2|].
  apply (yaml_json_same_validation demo_yaml demo_json demo_world "." "schema.yaml" "schema.json" eps [] []
           _ _ [(VStr "paths", VDict [(VStr "/users", VDict [(VStr "get", VDict [])])])]
           [(VStr "paths", VDict [(VStr "/users", VDict [(VStr "get", VDict [])])])]
           (VDict [(VStr "/users", VDict [(VStr "get", VDict [])])]) eq_refl eq_refl H1 H2);
    reflexivity.
Defined.

(** ** C9 *)

(** C9: a schema that loads successfully but is falsy, the empty mapping or
    null, makes [validate_endpoints] answer ["Schema not loaded."], not
    ["No paths defined in schema"]. *)
Theorem loaded_falsy_schema_reports_not_loaded y j w v tr st' :
  load_schema y j w (mkState v tr) = (st', Ok tt) ->
  schema (self st') = VDict [] \/ schema (self st') = VNone ->
  validate_on (self st') = Ok ["Schema not loaded."].
Proof.
  intros _ [Hs|Hs]; apply validate_on_falsy; rewrite Hs; reflexivity.
Qed.

Lemma loaded_falsy_schema_reports_not_loaded_witness :
  exists st',
    load_schema demo_yaml demo_json demo_world (init_state "." "empty.json") = (st', Ok tt) /\
    schema (self st') = VDict [] /\
    validate_on (self st') = Ok ["Schema not loaded."].
Proof.
  eexists.
  assert (H1 : load_schema demo_yaml demo_json demo_world (init_state "." "empty.json")
               = (fst (load_schema demo_yaml demo_json demo_world (init_state "." "empty.json")), Ok tt))
    by reflexivity.
  assert (H2 : schema (self (fst (load_schema demo_yaml demo_json demo_world (init_state "." "empty.json"))))
               = VDict []) by reflexivity.
  split; [exact H1|]. split; [exact H2|].
  exact (loaded_falsy_schema_reports_not_loaded demo_yaml demo_json demo_world _ _ _ H1 (or_introl H2)).
Defined.

(** ** C10 *)

(** C10: [find_endpoints] appends to [self.endpoints] without clearing it:
    starting from an empty list, [n] successful calls leave the records of
    one call repeated [n] times, and when the schema passes both checks of
    [validate_endpoints], its errors are those of one call repeated [n]
    times. *)
Theorem find_endpoints_accumulates w v tr st1 :
  endpoints v = [] ->
  find_endpoints w (mkState v tr) = (st1, Ok tt) ->
  forall n, exists stn,
    call_n n (find_endpoints w) (mkState v tr) = (stn, Ok tt) /\
    endpoints (self stn) = concat (repeat (endpoints (self st1)) n) /\
    forall errs, truthy (schema v) = true -> py_contains "paths" (schema v) = Ok true ->
      validate_on (self st1) = Ok errs ->
      validate_on (self stn) = Ok (concat (repeat errs n)).
Proof.
  intros Hnil H1 n.
  destruct (find_endpoints_ok w v tr st1 H1) as [found [Happ Hst1]].
  assert (Hfind := find_endpoints_of_appends w (code_path v) found Happ).
  destruct (call_n_appends (code_path v) (find_endpoints w) found Hfind n v tr eq_refl) as [trn En].
  exists (mkState (with_endpoints v (endpoints v ++ concat (repeat found n))) trn).
  rewrite Hst1, Hnil. simpl. split; [rewrite En, Hnil; reflexivity|]. split; [reflexivity|].
  intros errs Ht Hc Hv.
  rewrite validate_on_paths in Hv |- * by (simpl; assumption).
  simpl in Hv |- *.
  apply validate_loop_repeat. rewrite (validate_loop_snd _ _ _ _ (mkState (with_endpoints v found) [])).
  exact Hv.
Qed.

Lemma find_endpoints_accumulates_witness :
  exists st1,
    find_endpoints demo_world (init_state "." "schema.yaml") = (st1, Ok tt) /\
    exists st3,
      call_n 3 (find_endpoints demo_world) (init_state "." "schema.yaml") = (st3, Ok tt) /\
      endpoints (self st3) = concat (repeat (endpoints (self st1)) 3).
Proof.
  eexists.
  assert (H1 : find_endpoints demo_world (init_state "." "schema.yaml")
               = (fst (find_endpoints demo_world (init_state "." "schema.yaml")), Ok tt)) by reflexivity.
  split; [exact H1|].
  destruct (find_endpoints_accumulates demo_world (mkValidator "." "schema.yaml" [] VNone) [] _ eq_refl H1 3)
    as [st3 [E3 [Heps _]]].
  exists st3. split; [exact E3 | exact Heps].
Defined.

Example demo_three_scans :
  endpoints (self (fst (call_n 3 (find_endpoints demo_world) (init_state "." "schema.yaml"))))
  = [("./app.py", "/users"); ("./app.py", "/users"); ("./app.py", "/users")].
Proof. reflexivity. Qed.

(** * Further properties of the code *)

(** ** The route pattern: auxiliary facts *)

(** [s] satisfies [f] at every character. *)
Fixpoint str_forallb (f : ascii -> bool) (s : string) : bool :=
  match s with
  | EmptyString => true
  | String c s' => f c && str_forallb f s'
  end.

(** A character the lazy group [(.*?)] can take before its closing quote. *)
Definition plain_char (c : ascii) : bool := negb (is_quote c) && negb (Ascii.eqb c newline).

Lemma slength_app (a b : string) : String.length (a ++ b) = String.length a + String.length b.
Proof. induction a as [|c a IH]; simpl; auto. Qed.

Lemma sapp_assoc (a b c : string) : (a ++ (b ++ c) = (a ++ b) ++ c)%string.
Proof. induction a as [|x a IH]; simpl; [reflexivity | rewrite IH; reflexivity]. Qed.

Lemma prefixb_app (p s : string) : prefixb p (p ++ s) = true.
Proof. induction p as [|c p IH]; simpl; [reflexivity | rewrite Ascii.eqb_refl; exact IH]. Qed.

Lemma prefixb_sound (p s : string) : prefixb p s = true -> exists r, s = (p ++ r)%string.
Proof.
  revert s. induction p as [|c p IH]; intros s H; [exists s; reflexivity|].
  destruct s as [|c' s]; simpl in H; [discriminate|].
  apply andb_true_iff in H as [Hc H]. apply Ascii.eqb_eq in Hc as <-.
  destruct (IH s H) as [r ->]. exists r. reflexivity.
Qed.

Lemma sdrop_app (p s : string) : sdrop (String.length p) (p ++ s) = s.
Proof. induction p as [|c p IH]; simpl; auto. Qed.

Lemma lazy_group_plain (p rest : string) (q : ascii) :
  str_forallb plain_char p = true -> is_quote q = true ->
  lazy_group (p ++ String q rest) = Some (p, rest).
Proof.
  induction p as [|c p IH]; simpl; intros Hp Hq.
  - rewrite Hq. reflexivity.
  - apply andb_true_iff in Hp as [Hc Hp]. unfold plain_char in Hc.
    apply andb_true_iff in Hc as [H1 H2]. apply negb_true_iff in H1, H2.
    rewrite H1, H2, IH by assumption. reflexivity.
Qed.

Lemma lazy_group_sound (s g r : string) :
  lazy_group s = Some (g, r) ->
  str_forallb plain_char g = true /\ exists q, is_quote q = true /\ s = (g ++ String q r)%string.
Proof.
  revert g r. induction s as [|c s IH]; simpl; intros g r H; [discriminate|].
  destruct (is_quote c) eqn:Hq.
  - injection H as <- <-. split; [reflexivity|]. exists c. auto.
  - destruct (Ascii.eqb c newline) eqn:Hn; [discriminate|].
    destruct (lazy_group s) as [[g' r']|]; [|discriminate]. injection H as <- <-.
    destruct (IH g' r' eq_refl) as [Hg [q [Hq' ->]]].
    split.
    + change (str_forallb plain_char (String c g')) with (plain_char c && str_forallb plain_char g').
      rewrite Hg. unfold plain_char. rewrite Hq, Hn. reflexivity.
    + exists q. auto.
Qed.

Lemma match_at_route (q1 q2 : ascii) (p rest : string) :
  is_quote q1 = true -> is_quote q2 = true -> str_forallb plain_char p = true ->
  match_at (route_prefix ++ String q1 (p ++ String q2 rest)) = Some (p, rest).
Proof.
  intros H1 H2 Hp. unfold match_at. rewrite prefixb_app, sdrop_app.
  cbv beta iota. rewrite H1. apply lazy_group_plain; assumption.
Qed.

Lemma match_at_sound (s g r : string) :
  match_at s = Some (g, r) ->
  str_forallb plain_char g = true /\
  exists q1 q2, is_quote q1 = true /\ is_quote q2 = true /\
    s = (route_prefix ++ String q1 (g ++ String q2 r))%string.
Proof.
  unfold match_at. destruct (prefixb route_prefix s) eqn:Hp; [|discriminate].
  destruct (prefixb_sound _ _ Hp) as [x ->]. rewrite sdrop_app.
  destruct x as [|q1 x]; [discriminate|]. destruct (is_quote q1) eqn:Hq1; [|discriminate].
  intros H. destruct (lazy_group_sound _ _ _ H) as [Hg [q2 [Hq2 ->]]].
  split; [exact Hg|]. exists q1, q2. auto.
Qed.

Lemma match_at_length (s g r : string) :
  match_at s = Some (g, r) -> String.length r < String.length s.
Proof.
  intros H. destruct (match_at_sound _ _ _ H) as [_ [q1 [q2 [_ [_ ->]]]]].
  rewrite slength_app. cbn [String.length]. rewrite slength_app. cbn [String.length]. lia.
Qed.

(** Enough fuel: [findall_fuel] does not depend on the fuel beyond the
    length of the text. *)
Lemma findall_fuel_enough : forall n m s,
  String.length s <= n -> String.length s <= m -> findall_fuel n s = findall_fuel m s.
Proof.
  induction n as [|n IH]; intros m s Hn Hm.
  - destruct s; [destruct m; reflexivity | simpl in Hn; lia].
  - destruct m as [|m]; [destruct s; [reflexivity | simpl in Hm; lia]|].
    destruct s as [|c s']; [reflexivity|].
    cbn [findall_fuel].
    destruct (match_at (String c s')) as [[g r]|] eqn:E.
    + apply match_at_length in E. f_equal. apply IH; simpl in *; lia.
    + apply IH; simpl in *; lia.
Qed.

Lemma findall_route (q1 q2 : ascii) (p rest : string) :
  is_quote q1 = true -> is_quote q2 = true -> str_forallb plain_char p = true ->
  findall (route_prefix ++ String q1 (p ++ String q2 rest)) = p :: findall rest.
Proof.
  intros H1 H2 Hp. unfold findall.
  assert (E := match_at_route q1 q2 p rest H1 H2 Hp).
  assert (L := match_at_length _ _ _ E).
  change (route_prefix ++ String q1 (p ++ String q2 rest))%string
    with (String "@"%char ("app.route(" ++ String q1 (p ++ String q2 rest)))%string in *.
  cbn [String.length findall_fuel]. rewrite E. f_equal.
  apply findall_fuel_enough; [|lia].
  rewrite slength_app in *. cbn [String.length] in *. rewrite slength_app in *. cbn [String.length] in *.
  lia.
Qed.

Lemma substrb_prefix (p s : string) : prefixb p s = true -> substrb p s = true.
Proof. destruct s; simpl; intros ->; reflexivity. Qed.

Lemma substrb_app_r (p a s : string) : substrb p s = true -> substrb p (a ++ s) = true.
Proof.
  induction a as [|c a IH]; simpl; intros H; [exact H|].
  rewrite (IH H). apply orb_true_r.
Qed.

Lemma route_pattern_app (q1 q2 : ascii) (g r : string) :
  ((route_prefix ++ String q1 (g ++ String q2 EmptyString)) ++ r
   = route_prefix ++ String q1 (g ++ String q2 r))%string.
Proof.
  rewrite <- sapp_assoc. cbn [append]. rewrite <- sapp_assoc. reflexivity.
Qed.

(** Every group [findall] returns occurs in the text after [@app.route(]
    and a quote, and before a quote; it holds neither a quote nor a newline. *)
Lemma findall_fuel_sound : forall n s g,
  In g (findall_fuel n s) ->
  str_forallb plain_char g = true /\
  exists q1 q2, is_quote q1 = true /\ is_quote q2 = true /\
    substrb (route_prefix ++ String q1 (g ++ String q2 EmptyString)) s = true.
Proof.
  induction n as [|n IH]; intros s g H; [destruct H|].
  destruct s as [|c s']; [destruct H|].
  cbn [findall_fuel] in H.
  destruct (match_at (String c s')) as [[g' r]|] eqn:E.
  - destruct (match_at_sound _ _ _ E) as [Hg [q1 [q2 [Hq1 [Hq2 Hs]]]]].
    destruct H as [<-|H].
    + split; [exact Hg|]. exists q1, q2. split; [exact Hq1|]. split; [exact Hq2|].
      rewrite Hs. apply substrb_prefix.
      replace (route_prefix ++ String q1 (g' ++ String q2 r))%string
        with ((route_prefix ++ String q1 (g' ++ String q2 EmptyString)) ++ r)%string.
      * apply prefixb_app.
      * apply route_pattern_app.
    + destruct (IH r g H) as [Hg' [q1' [q2' [H1 [H2 Hsub]]]]].
      split; [exact Hg'|]. exists q1', q2'. split; [exact H1|]. split; [exact H2|].
      rewrite Hs.
      replace (route_prefix ++ String q1 (g' ++ String q2 r))%string
        with ((route_prefix ++ String q1 (g' ++ String q2 EmptyString)) ++ r)%string.
      * apply substrb_app_r. exact Hsub.
      * apply route_pattern_app.
  - destruct (IH s' g H) as [Hg' [q1' [q2' [H1 [H2 Hsub]]]]].
    split; [exact Hg'|]. exists q1', q2'. split; [exact H1|]. split; [exact H2|].
    change (String c s') with (String c EmptyString ++ s')%string.
    apply substrb_app_r. exact Hsub.
Qed.

(** ** [find_endpoints] as a pass over the [.py] files of the walk *)

(** The files [find_endpoints] reads, in the order it reads them: the names
    ending in [.py] of every listing of the walk, joined to their root. *)
Definition py_paths (w : world) (cp : string) : list string :=
  flat_map (fun '(root, _, fs) =>
              flat_map (fun file => if endswith file ".py" then [path_join root file] else []) fs)
           (walk w cp).

(** A pass over the files [ps]: the records found, the files opened and the
    exception that stops the pass at the first file that cannot be opened or
    read. *)
Fixpoint scan_pass (w : world) (ps : list string)
  : list (string * string) * list string * option exn :=
  match ps with
  | [] => ([], [], None)
  | p :: rest =>
      match fs_lookup p (files w) with
      | None => ([], [p], Some (FileNotFoundError p))
      | Some f =>
          match py_read f with
          | Raise e => ([], [p], Some e)
          | Ok c =>
              let '(recs, opened, err) := scan_pass w rest in
              ((map (fun endpoint => (p, endpoint)) (findall c) ++ recs)%list, p :: opened, err)
          end
      end
  end.

(** The pass as a state transformer on the validator object and the trace. *)
Definition pass_result (w : world) (ps : list string) : ST unit :=
  fun st =>
    let '(recs, opened, err) := scan_pass w ps in
    (mkState (with_endpoints (self st) (endpoints (self st) ++ recs)) (trace st ++ map EOpen opened),
     match err with None => Ok tt | Some e => Raise e end)%list.

Lemma pass_result_nil (w : world) (st : pystate) : pass_result w [] st = (st, Ok tt).
Proof.
  destruct st as [[cp sp eps s] tr]. unfold pass_result. simpl.
  rewrite !app_nil_r. reflexivity.
Qed.

Lemma pass_result_cons_ok (w : world) p rest f c (st : pystate) :
  fs_lookup p (files w) = Some f -> py_read f = Ok c ->
  pass_result w (p :: rest) st
  = pass_result w rest
      (mkState (with_endpoints (self st) (endpoints (self st) ++ map (fun e => (p, e)) (findall c)))
               (trace st ++ [EOpen p]))%list.
Proof.
  intros Hf Hr. unfold pass_result. cbn [scan_pass]. rewrite Hf, Hr.
  destruct (scan_pass w rest) as [[recs opened] err].
  unfold with_endpoints. cbn [self trace endpoints code_path schema_path schema map].
  rewrite <- !app_assoc. reflexivity.
Qed.

Lemma pass_result_app (w : world) (ps1 ps2 : list string) (st : pystate) :
  (let* _ := pass_result w ps1 in pass_result w ps2) st = pass_result w (ps1 ++ ps2) st.
Proof.
  revert st. induction ps1 as [|p rest IH]; intros st.
  - unfold bind. rewrite pass_result_nil. reflexivity.
  - cbn [app]. destruct (fs_lookup p (files w)) as [f|] eqn:Hf.
    + destruct (py_read f) as [c|e] eqn:Hr.
      * unfold bind. rewrite !(pass_result_cons_ok w p _ f c) by assumption.
        specialize (IH (mkState (with_endpoints (self st) (endpoints (self st) ++ map (fun e => (p, e)) (findall c)))
                                (trace st ++ [EOpen p]))%list).
        unfold bind in IH. exact IH.
      * unfold bind, pass_result. cbn [scan_pass]. rewrite Hf, Hr. reflexivity.
    + unfold bind, pass_result. cbn [scan_pass]. rewrite Hf. reflexivity.
Qed.

Lemma for_each_pass {A} (w : world) (l : list A) (body : A -> ST unit) (f : A -> list string) :
  (forall x st, body x st = pass_result w (f x) st) ->
  forall st, for_each l body st = pass_result w (flat_map f l) st.
Proof.
  intros H. induction l as [|x rest IH]; intros st.
  - simpl. rewrite pass_result_nil. reflexivity.
  - cbn [for_each flat_map]. rewrite <- pass_result_app. unfold bind. rewrite H.
    destruct (pass_result w (f x) st) as [st' [[]|e]]; [apply IH | reflexivity].
Qed.

Lemma scan_file_pass (w : world) (root file : string) (st : pystate) :
  scan_file w root file st
  = pass_result w (if endswith file ".py" then [path_join root file] else []) st.
Proof.
  unfold scan_file. destruct (endswith file ".py"); [|rewrite pass_result_nil; reflexivity].
  destruct st as [[cp sp eps s] tr].
  unfold py_open, py_read, extend_endpoints, pass_result. unfold_st. cbn [scan_pass self trace].
  destruct (fs_lookup (path_join root file) (files w)) as [[c|msg|[|] msg]|]; cbn;
    rewrite ?app_nil_r; reflexivity.
Qed.

Lemma scan_tree_pass (w : world) (cp : string) (st : pystate) :
  scan_tree w cp st = pass_result w (py_paths w cp) st.
Proof.
  unfold scan_tree, py_paths. apply for_each_pass.
  intros [[root dirs] fs] st'. apply for_each_pass. intros; apply scan_file_pass.
Qed.

Lemma scan_pass_exception (w : world) (ps : list string) recs opened e :
  scan_pass w ps = (recs, opened, Some e) -> is_Exception e = true.
Proof.
  revert recs opened. induction ps as [|p rest IH]; intros recs opened H; [discriminate|].
  cbn [scan_pass] in H. destruct (fs_lookup p (files w)) as [f|].
  - destruct (py_read f) as [c|x] eqn:Hr.
    + destruct (scan_pass w rest) as [[r o] err] eqn:Hs. injection H as _ _ ->. exact (IH _ _ eq_refl).
    + injection H as _ _ ->. destruct f as [c|m|[|] m]; simpl in Hr; try discriminate;
        injection Hr as <-; reflexivity.
  - injection H as _ _ <-. reflexivity.
Qed.

(** The files opened by the pass are the first ones of [ps]: all of them
    when it succeeds; up to the failing one otherwise. *)
Lemma scan_pass_opened (w : world) (ps : list string) recs opened err :
  scan_pass w ps = (recs, opened, err) ->
  exists suf, (opened ++ suf)%list = ps /\ (err = None -> opened = ps).
Proof.
  revert recs opened err. induction ps as [|p rest IH]; intros recs opened err H.
  - injection H as <- <- <-. exists []. auto.
  - cbn [scan_pass] in H. destruct (fs_lookup p (files w)) as [f|].
    + destruct (py_read f) as [c|x].
      * destruct (scan_pass w rest) as [[r o] e] eqn:Hs. injection H as <- <- <-.
        destruct (IH _ _ _ eq_refl) as [suf [Hsuf Hall]]. exists suf. simpl. rewrite Hsuf.
        split; [reflexivity|]. intros He. rewrite (Hall He). reflexivity.
      * injection H as <- <- <-. exists rest. split; [reflexivity | discriminate].
    + injection H as <- <- <-. exists rest. split; [reflexivity | discriminate].
Qed.

(** Each record the pass finds pairs a file of [ps] that was read with a
    group [findall] returns on the file's text. *)
Lemma scan_pass_records (w : world) (ps : list string) recs opened err :
  scan_pass w ps = (recs, opened, err) ->
  forall fp ep, In (fp, ep) recs ->
    In fp ps /\ exists c, fs_lookup fp (files w) = Some (FText c) /\ In ep (findall c).
Proof.
  revert recs opened err. induction ps as [|p rest IH]; intros recs opened err H fp ep Hin.
  - injection H as <- _ _. destruct Hin.
  - cbn [scan_pass] in H. destruct (fs_lookup p (files w)) as [f|] eqn:Hf.
    + destruct (py_read f) as [c|x] eqn:Hr.
      * destruct (scan_pass w rest) as [[r o] e] eqn:Hs. injection H as <- _ _.
        apply in_app_or in Hin. destruct Hin as [Hin|Hin].
        -- apply in_map_iff in Hin. destruct Hin as [ep' [Heq Hin]]. injection Heq as <- <-.
           split; [left; reflexivity|]. exists c. split; [|exact Hin].
           rewrite Hf. destruct f; simpl in Hr; try discriminate.
           injection Hr as ->. reflexivity. destruct decode; discriminate.
        -- destruct (IH _ _ _ eq_refl fp ep Hin) as [Hp Hc]. split; [right; exact Hp | exact Hc].
      * injection H as <- _ _. destruct Hin.
    + injection H as <- _ _. destruct Hin.
Qed.

Lemma endswith_app (a b suf : string) :
  endswith b suf = true -> endswith (a ++ b) suf = true.
Proof.
  unfold endswith. intros H. apply andb_true_iff in H as [Hle Heq].
  apply Nat.leb_le in Hle. rewrite slength_app.
  apply andb_true_iff. split; [apply Nat.leb_le; lia|].
  replace (String.length a + String.length b - String.length suf)
    with (String.length a + (String.length b - String.length suf)) by lia.
  assert (Hsub : forall k m, String.substring (String.length a + k) m (a ++ b) = String.substring k m b).
  { intros k m. induction a as [|c a IH]; [reflexivity|]. exact IH. }
  rewrite Hsub. exact Heq.
Qed.

Lemma path_join_py (root file : string) :
  endswith file ".py" = true -> endswith (path_join root file) ".py" = true.
Proof.
  intros H. unfold path_join.
  destruct (prefixb "/" file); [exact H|].
  destruct (String.eqb root EmptyString || endswith root "/"); [apply endswith_app; exact H|].
  rewrite sapp_assoc. apply endswith_app. exact H.
Qed.

Lemma py_paths_py (w : world) (cp p : string) :
  In p (py_paths w cp) -> endswith p ".py" = true.
Proof.
  unfold py_paths. intros H. apply in_flat_map in H as [[[root dirs] fs] [_ H]].
  apply in_flat_map in H as [file [_ H]].
  destruct (endswith file ".py") eqn:Hpy; [|destruct H].
  destruct H as [<-|[]]. apply path_join_py. exact Hpy.
Qed.

Lemma find_endpoints_pass (w : world) (v : validator) (tr : list event) :
  find_endpoints w (mkState v tr) =
  let '(recs, opened, err) := scan_pass w (py_paths w (code_path v)) in
  match err with
  | None => (mkState (with_endpoints v (endpoints v ++ recs)) (tr ++ map EOpen opened), Ok tt)
  | Some e =>
      (mkState (with_endpoints v (endpoints v ++ recs))
               (tr ++ map EOpen opened ++ [ELog ERROR ("Error finding endpoints: " ++ exn_str e)%string]),
       Raise e)
  end%list.
Proof.
  rewrite find_endpoints_unfold. unfold try_except. rewrite scan_tree_pass. unfold pass_result.
  cbn [self trace].
  destruct (scan_pass w (py_paths w (code_path v))) as [[recs opened] [e|]] eqn:Hs; [|reflexivity].
  rewrite (scan_pass_exception w _ recs opened e Hs).
  unfold bind, log, emit, raise. cbn [self trace]. rewrite <- app_assoc. reflexivity.
Qed.

(** ** Computations that only log *)

(** The files a trace opens, in order. *)
Definition opened_files (tr : list event) : list string :=
  flat_map (fun ev => match ev with EOpen p => [p] | ELog _ _ => [] end) tr.

Lemma opened_files_app (t1 t2 : list event) :
  opened_files (t1 ++ t2) = (opened_files t1 ++ opened_files t2)%list.
Proof. unfold opened_files. apply flat_map_app. Qed.

Lemma opened_files_map_open (ps : list string) : opened_files (map EOpen ps) = ps.
Proof. induction ps as [|p ps IH]; simpl; [reflexivity | rewrite IH; reflexivity]. Qed.

Definition exn_ok {A} (o : outcome A) : Prop := forall e, o = Raise e -> is_Exception e = true.

(** [m] leaves [self] as it is, only appends log records to the trace, and
    raises nothing but an [Exception]. *)
Definition log_only {A} (m : ST A) : Prop :=
  forall st st' o, m st = (st', o) ->
    self st' = self st /\
    (exists logs, trace st' = (trace st ++ logs)%list /\ opened_files logs = []) /\
    exn_ok o.

Lemma log_only_ret {A} (a : A) : log_only (ret a).
Proof.
  intros st st' o H. injection H as <- <-. split; [reflexivity|].
  split; [exists []; rewrite app_nil_r; auto | discriminate].
Qed.

Lemma log_only_lift {A} (o : outcome A) : exn_ok o -> log_only (lift o).
Proof.
  intros Ho st st' o' H. injection H as <- <-. split; [reflexivity|].
  split; [exists []; rewrite app_nil_r; auto | exact Ho].
Qed.

Lemma log_only_log (l : level) (m : string) : log_only (log l m).
Proof.
  intros st st' o H. injection H as <- <-. split; [reflexivity|].
  split; [exists [ELog l m]; auto | discriminate].
Qed.

Lemma log_only_get : log_only get_self.
Proof.
  intros st st' o H. injection H as <- <-. split; [reflexivity|].
  split; [exists []; rewrite app_nil_r; auto | discriminate].
Qed.

Lemma log_only_bind {A B} (m : ST A) (k : A -> ST B) :
  log_only m -> (forall a, log_only (k a)) -> log_only (bind m k).
Proof.
  intros Hm Hk st st' o H. unfold bind in H.
  destruct (m st) as [st1 [a|e]] eqn:E1.
  - destruct (Hm _ _ _ E1) as [S1 [[l1 [T1 O1]] _]].
    destruct (Hk a _ _ _ H) as [S2 [[l2 [T2 O2]] X2]].
    split; [congruence|]. split; [|exact X2].
    exists (l1 ++ l2)%list. rewrite T2, T1, app_assoc. split; [reflexivity|].
    rewrite opened_files_app, O1, O2. reflexivity.
  - injection H as <- <-. destruct (Hm _ _ _ E1) as [S1 [T1 X1]].
    split; [exact S1|]. split; [exact T1|].
    intros e' He'. injection He' as <-. exact (X1 e eq_refl).
Qed.

Lemma py_getitem_exn_ok (c : value) (k : string) : exn_ok (py_getitem c k).
Proof.
  intros e H. destruct c; simpl in H; try (destruct (dict_get k kvs));
    try discriminate; injection H as <-; reflexivity.
Qed.

Lemma py_contains_exn_ok (k : string) (c : value) : exn_ok (py_contains k c).
Proof. intros e H. destruct c; simpl in H; try discriminate; injection H as <-; reflexivity. Qed.

Lemma py_keys_exn_ok (c : value) : exn_ok (py_keys c).
Proof. intros e H. destruct c; simpl in H; try discriminate; injection H as <-; reflexivity. Qed.

Lemma validate_loop_log_only (sch : value) (eps : list (string * string)) :
  forall errs, log_only (validate_loop sch eps errs).
Proof.
  induction eps as [|[fp ep] rest IH]; intros errs; [apply log_only_ret|].
  cbn [validate_loop].
  apply log_only_bind; [apply log_only_lift, py_getitem_exn_ok|intros paths].
  apply log_only_bind; [apply log_only_lift, py_contains_exn_ok|intros found].
  destruct (negb found); [apply IH|].
  apply log_only_bind; [apply log_only_log|intros _].
  apply log_only_bind; [apply log_only_lift, py_getitem_exn_ok|intros paths'].
  apply log_only_bind; [apply log_only_lift, py_getitem_exn_ok|intros entry].
  apply log_only_bind; [apply log_only_lift, py_keys_exn_ok|intros methods].
  destruct (negb _); apply IH.
Qed.

Lemma validate_endpoints_log_only : log_only validate_endpoints.
Proof.
  unfold validate_endpoints. apply log_only_bind; [apply log_only_get|intros v].
  destruct (negb (truthy (schema v))).
  - apply log_only_bind; [apply log_only_log | intros; apply log_only_ret].
  - apply log_only_bind; [apply log_only_lift, py_contains_exn_ok|intros has].
    destruct (negb has).
    + apply log_only_bind; [apply log_only_log | intros; apply log_only_ret].
    + apply validate_loop_log_only.
Qed.

(** ** [load_schema]: success and failure *)

Definition yaml_ext (p : string) : bool := endswith p ".yaml" || endswith p ".yml".

Lemma load_schema_cases y j w v tr :
  load_schema y j w (mkState v tr)
  = match fs_lookup (schema_path v) (files w) with
    | None =>
        (mkState v (tr ++ [EOpen (schema_path v);
                           ELog ERROR ("Schema file not found: " ++ schema_path v)])%list,
         Raise (FileNotFoundError (schema_path v)))
    | Some f =>
        let failed e m :=
          (mkState v (tr ++ [EOpen (schema_path v); ELog ERROR m])%list, Raise e) in
        if yaml_ext (schema_path v) then
          match py_read f with
          | Raise e => failed e ("Error loading schema: " ++ exn_str e)
          | Ok c =>
              match y c with
              | inl d => (mkState (mkValidator (code_path v) (schema_path v) (endpoints v) d)
                                  (tr ++ [EOpen (schema_path v)])%list, Ok tt)
              | inr m => failed (YAMLError m) ("Error parsing YAML schema: " ++ m)
              end
          end
        else if endswith (schema_path v) ".json" then
          match py_read f with
          | Raise e => failed e ("Error loading schema: " ++ exn_str e)
          | Ok c =>
              match j c with
              | inl d => (mkState (mkValidator (code_path v) (schema_path v) (endpoints v) d)
                                  (tr ++ [EOpen (schema_path v)])%list, Ok tt)
              | inr m => failed (JSONDecodeError m) ("Error parsing JSON schema: " ++ m)
              end
          end
        else
          match f with
          | FNoOpen msg => failed (OSError msg) ("Error loading schema: " ++ msg)
          | _ =>
              failed (ValueError "Unsupported schema file format. Only YAML and JSON are supported.")
                     "Error loading schema: Unsupported schema file format. Only YAML and JSON are supported."
          end
    end.
Proof.
  unfold load_schema, try_except, load_schema_body, py_open, py_read, set_schema,
    parse_yaml, parse_json, yaml_ext.
  unfold_st. cbn [self trace].
  destruct (fs_lookup (schema_path v) (files w)) as [[c|msg|[|] msg]|];
  destruct (endswith (schema_path v) ".yaml"); destruct (endswith (schema_path v) ".yml");
  destruct (endswith (schema_path v) ".json");
  try destruct (y c); try destruct (j c);
  cbn; rewrite <- ?app_assoc; reflexivity.
Qed.

Lemma py_read_ok (f : fentry) (c : string) : py_read f = Ok c -> f = FText c.
Proof. destruct f as [c'|m|[|] m]; simpl; intros H; try discriminate; injection H as ->; reflexivity. Qed.

Lemma load_schema_ok_iff y j w v tr st' :
  load_schema y j w (mkState v tr) = (st', Ok tt) <->
  exists c d, fs_lookup (schema_path v) (files w) = Some (FText c) /\
    ((yaml_ext (schema_path v) = true /\ y c = inl d) \/
     (yaml_ext (schema_path v) = false /\ endswith (schema_path v) ".json" = true /\ j c = inl d)) /\
    st' = mkState (mkValidator (code_path v) (schema_path v) (endpoints v) d)
                  (tr ++ [EOpen (schema_path v)])%list.
Proof.
  rewrite load_schema_cases. split.
  - destruct (fs_lookup (schema_path v) (files w)) as [f|] eqn:Hf; [|discriminate].
    cbv zeta. destruct (yaml_ext (schema_path v)) eqn:Hy.
    + destruct (py_read f) as [c|x] eqn:Hr; [|discriminate].
      destruct (y c) as [d|m] eqn:Hyc; [|discriminate].
      intros H. injection H as <-. exists c, d. apply py_read_ok in Hr. subst f.
      split; [reflexivity|]. split; [left; auto | reflexivity].
    + destruct (endswith (schema_path v) ".json") eqn:Hj.
      * destruct (py_read f) as [c|x] eqn:Hr; [|discriminate].
        destruct (j c) as [d|m] eqn:Hjc; [|discriminate].
        intros H. injection H as <-. exists c, d. apply py_read_ok in Hr. subst f.
        split; [reflexivity|]. split; [right; auto | reflexivity].
      * destruct f; discriminate.
  - intros [c [d [Hf [[[Hy Hyc]|[Hy [Hj Hjc]]] ->]]]]; rewrite Hf; cbv zeta; rewrite Hy.
    + cbn [py_read]. rewrite Hyc. reflexivity.
    + rewrite Hj. cbn [py_read]. rewrite Hjc. reflexivity.
Qed.

Lemma for_each_log_trace (msgs : list string) (st : pystate) :
  for_each msgs (log ERROR) st
  = (mkState (self st) (trace st ++ map (ELog ERROR) msgs)%list, Ok tt).
Proof.
  revert st. induction msgs as [|m rest IH]; intros [v tr].
  - cbn. rewrite app_nil_r. reflexivity.
  - cbn [for_each]. unfold bind, log, emit. rewrite IH. cbn [self trace map].
    rewrite <- app_assoc. reflexivity.
Qed.

Lemma no_open_opened_files (logs : list event) :
  (forall p, ~ In (EOpen p) logs) -> opened_files logs = [].
Proof.
  induction logs as [|[p|l m] rest IH]; intros H; [reflexivity| |].
  - exfalso. apply (H p). left. reflexivity.
  - apply IH. intros p Hp. apply (H p). right. exact Hp.
Qed.

Lemma find_endpoints_exn (w : world) (st st' : pystate) (e : exn) :
  find_endpoints w st = (st', Raise e) -> is_Exception e = true.
Proof.
  destruct st as [v tr]. rewrite find_endpoints_pass.
  destruct (scan_pass w (py_paths w (code_path v))) as [[recs opened] [x|]] eqn:Hs;
    intros H; [|discriminate].
  injection H as _ <-. exact (scan_pass_exception _ _ _ _ _ Hs).
Qed.

(** What [main] reports once the schema is loaded and the tree scanned. *)
Lemma main_report_aux y j w cp sp st1 st2 :
  load_schema y j w (init_state cp sp) = (st1, Ok tt) ->
  find_endpoints w st1 = (st2, Ok tt) ->
  exists logs, opened_files logs = [] /\
  main y j w cp sp =
    match validate_on (self st2) with
    | Ok [] => (0%Z, trace st2 ++ logs ++ [ELog INFO "API Endpoint Validation Passed."])
    | Ok errs =>
        (1%Z, trace st2 ++ logs ++ ELog ERROR "API Endpoint Validation Failed:" :: map (ELog ERROR) errs)
    | Raise e =>
        (1%Z, trace st2 ++ logs ++ [ELog CRITICAL ("An unexpected error occurred: " ++ exn_str e)%string])
    end%list.
Proof.
  intros H1 H2.
  destruct (validate_endpoints st2) as [st3 o] eqn:E3.
  destruct (validate_endpoints_log_only _ _ _ E3) as [S3 [[logs [T3 O3]] X3]].
  assert (Ho : o = validate_on (self st2)) by (rewrite <- validate_endpoints_snd, E3; reflexivity).
  exists logs. split; [exact O3|]. rewrite <- Ho.
  unfold main, main_body. cbv zeta.
  change (mkState (mkValidator cp sp [] VNone) []) with (init_state cp sp).
  unfold bind. rewrite H1, H2, E3.
  destruct o as [[|m rest]|e].
  - unfold log, emit. cbn [self trace]. rewrite T3, <- app_assoc. reflexivity.
  - unfold log, emit. cbn [self trace]. rewrite for_each_log_trace. unfold raise. cbn [self trace].
    rewrite T3, <- !app_assoc. reflexivity.
  - specialize (X3 e eq_refl). destruct e; try discriminate X3;
      rewrite T3, <- app_assoc; reflexivity.
Qed.

(** The three ways a run of [main] goes. *)
Lemma main_cases y j w cp sp :
  (exists st1 e, load_schema y j w (init_state cp sp) = (st1, Raise e) /\
     main y j w cp sp
     = (1%Z, trace st1 ++ [ELog CRITICAL ("An unexpected error occurred: " ++ exn_str e)%string])%list)
  \/ (exists st1 st2 e, load_schema y j w (init_state cp sp) = (st1, Ok tt) /\
     find_endpoints w st1 = (st2, Raise e) /\
     main y j w cp sp
     = (1%Z, trace st2 ++ [ELog CRITICAL ("An unexpected error occurred: " ++ exn_str e)%string])%list)
  \/ (exists st1 st2, load_schema y j w (init_state cp sp) = (st1, Ok tt) /\
     find_endpoints w st1 = (st2, Ok tt) /\
     exists logs, opened_files logs = [] /\
     main y j w cp sp =
       match validate_on (self st2) with
       | Ok [] => (0%Z, trace st2 ++ logs ++ [ELog INFO "API Endpoint Validation Passed."])
       | Ok errs =>
           (1%Z, trace st2 ++ logs ++ ELog ERROR "API Endpoint Validation Failed:" :: map (ELog ERROR) errs)
       | Raise e =>
           (1%Z, trace st2 ++ logs ++ [ELog CRITICAL ("An unexpected error occurred: " ++ exn_str e)%string])
       end%list).
Proof.
  destruct (load_schema y j w (init_state cp sp)) as [st1 [[]|e]] eqn:E1.
  - destruct (find_endpoints w st1) as [st2 [[]|e]] eqn:E2.
    + right; right. exists st1, st2. split; [first [exact E1 | reflexivity]|]. split; [first [exact E2 | reflexivity]|].
      exact (main_report_aux y j w cp sp st1 st2 E1 E2).
    + right; left. exists st1, st2, e. split; [first [exact E1 | reflexivity]|]. split; [first [exact E2 | reflexivity]|].
      apply main_when_load_or_scan_raises; [|exact (find_endpoints_exn _ _ _ _ E2)].
      unfold bind. change (mkState (mkValidator cp sp [] VNone) []) with (init_state cp sp).
      rewrite E1. exact E2.
  - left. exists st1, e. split; [first [exact E1 | reflexivity]|].
    destruct (load_schema_effect y j w _ _ _ _ E1) as [_ [_ [_ [He _]]]].
    apply main_when_load_or_scan_raises; [|exact (proj2 (He e eq_refl))].
    unfold bind. change (mkState (mkValidator cp sp [] VNone) []) with (init_state cp sp).
    rewrite E1. reflexivity.
Qed.

Lemma opened_files_open (p : string) (t : list event) : opened_files (EOpen p :: t) = p :: opened_files t.
Proof. reflexivity. Qed.

Lemma opened_files_log (l : level) (m : string) (t : list event) : opened_files (ELog l m :: t) = opened_files t.
Proof. reflexivity. Qed.

Lemma opened_files_nil : opened_files [] = [].
Proof. reflexivity. Qed.

Lemma opened_files_map_log (l : level) (msgs : list string) : opened_files (map (ELog l) msgs) = [].
Proof. induction msgs as [|m msgs IH]; [reflexivity | exact IH]. Qed.

Create Rewrite HintDb opened.
Hint Rewrite opened_files_app opened_files_open opened_files_log opened_files_nil
  opened_files_map_open opened_files_map_log app_nil_l app_nil_r : opened.

Lemma load_schema_opened y j w v tr st' o :
  load_schema y j w (mkState v tr) = (st', o) ->
  exists logs, trace st' = (tr ++ EOpen (schema_path v) :: logs)%list /\ opened_files logs = [].
Proof.
  intros H. destruct (load_schema_effect _ _ _ _ _ _ _ H) as [_ [_ [_ [_ [logs [T N]]]]]].
  exists logs. split; [exact T | apply no_open_opened_files; exact N].
Qed.

Lemma find_endpoints_opened w v tr st' o :
  find_endpoints w (mkState v tr) = (st', o) ->
  exists opened suf logs, trace st' = (tr ++ map EOpen opened ++ logs)%list /\
    opened_files logs = [] /\ (opened ++ suf)%list = py_paths w (code_path v).
Proof.
  rewrite find_endpoints_pass.
  destruct (scan_pass w (py_paths w (code_path v))) as [[recs opened] err] eqn:Hs.
  destruct (scan_pass_opened _ _ _ _ _ Hs) as [suf [Hsuf _]].
  destruct err as [e|]; intros H; injection H as <- _; exists opened, suf.
  - exists [ELog ERROR ("Error finding endpoints: " ++ exn_str e)]. auto.
  - exists []. rewrite app_nil_r. auto.
Qed.

(** ** Extra properties *)

(** X1: a decorator [@app.route(] immediately followed by a quote, a path
    holding neither a quote nor a newline, and a quote, is found by the
    route pattern with exactly that path, and the scan goes on right after
    the closing quote; either quote may be single or double, and they need
    not be the same. *)
Theorem findall_route_decorator (q1 q2 : ascii) (p rest : string) :
  is_quote q1 = true -> is_quote q2 = true -> str_forallb plain_char p = true ->
  findall (route_prefix ++ String q1 (p ++ String q2 rest)) = p :: findall rest.
Proof. apply findall_route. Qed.

Lemma findall_route_decorator_witness :
  is_quote squote = true /\ is_quote dquote = true /\
  str_forallb plain_char "/items/{item_id}" = true /\
  findall (route_prefix ++ String squote ("/items/{item_id}" ++ String dquote ")"))
  = "/items/{item_id}" :: findall ")".
Proof.
  split; [reflexivity|]. split; [reflexivity|]. split; [reflexivity|].
  apply findall_route_decorator; reflexivity.
Defined.

(** X2: every endpoint the route pattern reports in a text holds neither a
    quote nor a newline, and occurs in the text as [@app.route(], a quote,
    the endpoint and a quote. *)
Theorem findall_endpoint_sound (content g : string) :
  In g (findall content) ->
  str_forallb plain_char g = true /\
  exists q1 q2, is_quote q1 = true /\ is_quote q2 = true /\
    substrb (route_prefix ++ String q1 (g ++ String q2 EmptyString)) content = true.
Proof. apply findall_fuel_sound. Qed.

Lemma findall_endpoint_sound_witness :
  In "/users" (findall demo_app_py) /\
  str_forallb plain_char "/users" = true /\
  exists q1 q2, is_quote q1 = true /\ is_quote q2 = true /\
    substrb (route_prefix ++ String q1 ("/users" ++ String q2 EmptyString)) demo_app_py = true.
Proof.
  assert (H : In "/users" (findall demo_app_py)) by (vm_compute; left; reflexivity).
  split; [exact H | exact (findall_endpoint_sound demo_app_py "/users" H)].
Defined.

(** X3: [find_endpoints] is one pass over the files ending in [.py] of the
    walk of [code_path], in walk order: it opens each one, appends to
    [self.endpoints] the pairs of its path with each route of its text, and
    stops at the first file it cannot open or read; the records of the files
    before it stay appended, the error is logged and raised again. *)
Theorem find_endpoints_as_pass (w : world) (v : validator) (tr : list event) :
  find_endpoints w (mkState v tr) =
  let '(recs, opened, err) := scan_pass w (py_paths w (code_path v)) in
  match err with
  | None => (mkState (with_endpoints v (endpoints v ++ recs)) (tr ++ map EOpen opened), Ok tt)
  | Some e =>
      (mkState (with_endpoints v (endpoints v ++ recs))
               (tr ++ map EOpen opened ++ [ELog ERROR ("Error finding endpoints: " ++ exn_str e)%string]),
       Raise e)
  end%list.
Proof. apply find_endpoints_pass. Qed.

(** X4: whether it succeeds or fails, [find_endpoints] only appends to
    [self.endpoints] and changes no other field; each record it appends
    pairs the path of a file ending in [.py] listed by the walk, which it
    read, with a route found in that file's text. *)
Theorem find_endpoints_records w v tr st' o :
  find_endpoints w (mkState v tr) = (st', o) ->
  code_path (self st') = code_path v /\ schema_path (self st') = schema_path v /\
  schema (self st') = schema v /\
  exists found, endpoints (self st') = (endpoints v ++ found)%list /\
    forall fp ep, In (fp, ep) found ->
      In fp (py_paths w (code_path v)) /\ endswith fp ".py" = true /\
      exists c, fs_lookup fp (files w) = Some (FText c) /\ In ep (findall c).
Proof.
  rewrite find_endpoints_pass.
  destruct (scan_pass w (py_paths w (code_path v))) as [[recs opened] err] eqn:Hs.
  intros H. assert (Hself : self st' = with_endpoints v (endpoints v ++ recs)).
  { destruct err; injection H as <- _; reflexivity. }
  rewrite Hself. unfold with_endpoints. cbn [code_path schema_path schema endpoints].
  split; [reflexivity|]. split; [reflexivity|]. split; [reflexivity|].
  exists recs. split; [reflexivity|].
  intros fp ep Hin. destruct (scan_pass_records _ _ _ _ _ Hs fp ep Hin) as [Hp Hc].
  split; [exact Hp|]. split; [exact (py_paths_py _ _ _ Hp) | exact Hc].
Qed.

Lemma find_endpoints_records_witness :
  find_endpoints demo_world (init_state "." "schema.yaml")
    = (fst (find_endpoints demo_world (init_state "." "schema.yaml")), Ok tt) /\
  code_path (self (fst (find_endpoints demo_world (init_state "." "schema.yaml")))) = "." /\
  schema_path (self (fst (find_endpoints demo_world (init_state "." "schema.yaml")))) = "schema.yaml" /\
  schema (self (fst (find_endpoints demo_world (init_state "." "schema.yaml")))) = VNone /\
  exists found, endpoints (self (fst (find_endpoints demo_world (init_state "." "schema.yaml"))))
                  = ([] ++ found)%list /\
    forall fp ep, In (fp, ep) found ->
      In fp (py_paths demo_world ".") /\ endswith fp ".py" = true /\
      exists c, fs_lookup fp (files demo_world) = Some (FText c) /\ In ep (findall c).
Proof.
  assert (H : find_endpoints demo_world (init_state "." "schema.yaml")
              = (fst (find_endpoints demo_world (init_state "." "schema.yaml")), Ok tt)) by reflexivity.
  split; [exact H|].
  exact (find_endpoints_records demo_world (mkValidator "." "schema.yaml" [] VNone) [] _ _ H).
Defined.

(** X5: the YAML-only documents: a set (a [!!set]) that contains ['paths']
    behaves as a list does, giving no error when no endpoint was found and
    raising [TypeError] (['set' object is not subscriptable]) on the first
    record otherwise; a non-empty [bytes] document (a [!!binary]) makes
    ['paths' in schema] raise [TypeError], whatever the records. *)
Theorem validate_set_bytes_schema (v : validator) :
  (forall l, schema v = VSet l -> In (VStr "paths") l ->
     validate_on v = match endpoints v with
                     | [] => Ok []
                     | _ :: _ => Raise (TypeError "'set' object is not subscriptable")
                     end) /\
  (forall b, schema v = VBytes b -> b <> [] ->
     validate_on v = Raise (TypeError "a bytes-like object is required, not 'str'")).
Proof.
  split.
  - intros l Hs Hin.
    assert (Hc : existsb (str_eq_value "paths") l = true).
    { apply existsb_exists. exists (VStr "paths"). split; [exact Hin | reflexivity]. }
    rewrite validate_on_paths; rewrite ?Hs.
    + destruct (endpoints v) as [|[fp ep] rest]; [reflexivity|].
      rewrite validate_loop_cons. reflexivity.
    + destruct l; [destruct Hin | reflexivity].
    + simpl. rewrite Hc. reflexivity.
  - intros b Hs Hne.
    unfold validate_on, validate_endpoints, bind, get_self, lift; cbn [self]. rewrite Hs.
    destruct b; [congruence | reflexivity].
Qed.

Lemma validate_set_bytes_schema_witness :
  validate_on (mkValidator "." "schema.yaml" [("./app.py", "/users")] (VSet [VStr "paths"; VStr "info"]))
  = Raise (TypeError "'set' object is not subscriptable") /\
  validate_on (mkValidator "." "schema.yaml" [] (VBytes [Byte.x00]))
  = Raise (TypeError "a bytes-like object is required, not 'str'").
Proof.
  split.
  - exact (proj1 (validate_set_bytes_schema
                    (mkValidator "." "schema.yaml" [("./app.py", "/users")] (VSet [VStr "paths"; VStr "info"])))
             _ eq_refl (or_introl eq_refl)).
  - apply (proj2 (validate_set_bytes_schema (mkValidator "." "schema.yaml" [] (VBytes [Byte.x00])))
             _ eq_refl). discriminate.
Defined.

(** X6: once the schema is truthy and has [paths], validating the records
    [e1 ++ e2] gives the errors of [e1] followed by those of [e2]; if [e1]
    raises, so does the whole, with the same exception.  Records are checked
    one by one: a record listed twice contributes its errors twice. *)
Theorem validate_records_app (v : validator) (e1 e2 : list (string * string)) :
  truthy (schema v) = true -> py_contains "paths" (schema v) = Ok true ->
  validate_on (with_endpoints v (e1 ++ e2)) =
  match validate_on (with_endpoints v e1) with
  | Ok r1 => omap (app r1) (validate_on (with_endpoints v e2))
  | Raise x => Raise x
  end.
Proof.
  intros Ht Hc.
  rewrite !validate_on_paths by (unfold with_endpoints; cbn [schema]; assumption).
  unfold with_endpoints. cbn [schema endpoints].
  rewrite (validate_loop_snd _ e1 [] _ (mkState (mkValidator (code_path v) (schema_path v) (e1 ++ e2) (schema v)) [])).
  rewrite (validate_loop_snd _ e2 [] _ (mkState (mkValidator (code_path v) (schema_path v) (e1 ++ e2) (schema v)) [])).
  apply validate_loop_app.
Qed.

Lemma validate_records_app_witness :
  let v := mkValidator "." "schema.json" [] doc_users_get in
  truthy (schema v) = true /\ py_contains "paths" (schema v) = Ok true /\
  validate_on (with_endpoints v ([("./app.py", "/items")] ++ [("./app.py", "/items")])) =
  match validate_on (with_endpoints v [("./app.py", "/items")]) with
  | Ok r1 => omap (app r1) (validate_on (with_endpoints v [("./app.py", "/items")]))
  | Raise x => Raise x
  end.
Proof.
  intros v. split; [reflexivity|]. split; [reflexivity|].
  apply validate_records_app; reflexivity.
Defined.

(** X7: a schema document that is a truthy scalar, an [int] or a [float]
    other than zero (nan and the infinities included), [true], or a
    timestamp (a YAML or JSON file holding just a scalar), passes the
    [not self.schema] test, and [validate_endpoints] then raises [TypeError]
    on [in], whatever the records. *)
Theorem validate_scalar_schema_raises (v : validator) :
  truthy (schema v) = true ->
  (exists z, schema v = VInt z) \/ (exists f, schema v = VFloat f) \/
  (exists b, schema v = VBool b) \/ (exists t x, schema v = VTimestamp t x) ->
  validate_on v = Raise (TypeError ("argument of type '" ++ type_name (schema v) ++ "' is not iterable")).
Proof.
  intros Ht Hsh.
  unfold validate_on, validate_endpoints, bind, get_self, lift; cbn [self]. rewrite Ht.
  destruct Hsh as [[z Hs]|[[f Hs]|[[b Hs]|[t [x Hs]]]]]; rewrite Hs; reflexivity.
Qed.

Lemma validate_scalar_schema_raises_witness :
  validate_on (mkValidator "." "schema.yaml" [("./app.py", "/users")] (VFloat 1.5%float))
  = Raise (TypeError "argument of type 'float' is not iterable").
Proof.
  apply (validate_scalar_schema_raises (mkValidator "." "schema.yaml" [("./app.py", "/users")] (VFloat 1.5%float)));
    [vm_compute; reflexivity | right; left; eexists; reflexivity].
Defined.

(** X8: a schema document that is a string or a list, for which ['paths'
    in schema] holds (a substring, resp. an element), gives no error when no
    endpoint was found and raises [TypeError] on [schema['paths']] as soon
    as one was. *)
Theorem validate_sequence_schema (v : validator) :
  (exists s, schema v = VStr s) \/ (exists l, schema v = VList l) ->
  truthy (schema v) = true -> py_contains "paths" (schema v) = Ok true ->
  (endpoints v = [] -> validate_on v = Ok []) /\
  (endpoints v <> [] -> exists m, validate_on v = Raise (TypeError m)).
Proof.
  intros Hsh Ht Hc. rewrite validate_on_paths by assumption.
  split; intros He.
  - rewrite He. reflexivity.
  - destruct (endpoints v) as [|[fp ep] rest]; [congruence|].
    rewrite validate_loop_cons. unfold record_step.
    destruct Hsh as [[s Hs]|[l Hs]]; rewrite Hs; eexists; reflexivity.
Qed.

Lemma validate_sequence_schema_witness :
  let v := mkValidator "." "schema.yaml" [("./app.py", "/users")] (VStr "see paths.md") in
  ((exists s, schema v = VStr s) \/ (exists l, schema v = VList l)) /\
  truthy (schema v) = true /\ py_contains "paths" (schema v) = Ok true /\
  exists m, validate_on v = Raise (TypeError m).
Proof.
  intros v.
  assert (H1 : (exists s, schema v = VStr s) \/ (exists l, schema v = VList l))
    by (left; eexists; reflexivity).
  assert (H2 : truthy (schema v) = true) by reflexivity.
  assert (H3 : py_contains "paths" (schema v) = Ok true) by reflexivity.
  split; [exact H1|]. split; [exact H2|]. split; [exact H3|].
  apply (proj2 (validate_sequence_schema v H1 H2 H3)). discriminate.
Defined.

(** X9: when [paths] maps to [None] (an empty [paths:] entry in YAML), a
    boolean, a number ([int] or [float]) or a timestamp, [validate_endpoints] returns no error if no
    endpoint was found, and raises [TypeError] on the first record
    otherwise. *)
Theorem validate_non_container_paths (v : validator) kvs p :
  schema v = VDict kvs -> dict_get "paths" kvs = Some p ->
  (p = VNone \/ (exists b, p = VBool b) \/ (exists z, p = VInt z) \/ (exists f, p = VFloat f) \/
   (exists t x, p = VTimestamp t x)) ->
  validate_on v = match endpoints v with
                  | [] => Ok []
                  | _ :: _ => Raise (TypeError ("argument of type '" ++ type_name p ++ "' is not iterable"))
                  end.
Proof.
  intros Hs Hp Hsh. rewrite validate_on_paths; rewrite ?Hs.
  - destruct (endpoints v) as [|[fp ep] rest]; [reflexivity|].
    rewrite validate_loop_cons. unfold record_step. rewrite (py_getitem_dict _ _ _ Hp).
    destruct Hsh as [->|[[b ->]|[[z ->]|[[f ->]|[t [x ->]]]]]]; reflexivity.
  - eapply dict_get_truthy; eauto.
  - eapply py_contains_dict_get; eauto.
Qed.

Lemma validate_non_container_paths_witness :
  validate_on (mkValidator "." "schema.yaml" [("./app.py", "/users")] (VDict [(VStr "paths", VNone)]))
  = Raise (TypeError ("argument of type '" ++ type_name VNone ++ "' is not iterable")).
Proof.
  apply (validate_non_container_paths
           (mkValidator "." "schema.yaml" [("./app.py", "/users")] (VDict [(VStr "paths", VNone)]))
           [(VStr "paths", VNone)] VNone); [reflexivity | reflexivity | left; reflexivity].
Defined.

(** X10: [load_schema] returns normally exactly when the schema file can be
    read, its name ends in [.yaml] or [.yml] and the YAML parser accepts its
    text, or it ends in [.json] (and not in those) and the JSON parser
    accepts it; then [self.schema] is the parsed document, the other fields
    are kept, and nothing is logged. *)
Theorem load_schema_success y j w v tr st' :
  load_schema y j w (mkState v tr) = (st', Ok tt) <->
  exists c d, fs_lookup (schema_path v) (files w) = Some (FText c) /\
    ((yaml_ext (schema_path v) = true /\ y c = inl d) \/
     (yaml_ext (schema_path v) = false /\ endswith (schema_path v) ".json" = true /\ j c = inl d)) /\
    st' = mkState (mkValidator (code_path v) (schema_path v) (endpoints v) d)
                  (tr ++ [EOpen (schema_path v)])%list.
Proof. apply load_schema_ok_iff. Qed.

Lemma load_schema_success_witness :
  load_schema demo_yaml demo_json (mkWorld [("schema.yml", FText demo_yaml_text)] demo_walk)
    (mkState (mkValidator "." "schema.yml" [] VNone) [])
  = (mkState (mkValidator "." "schema.yml" [] doc_users_get) [EOpen "schema.yml"], Ok tt).
Proof.
  apply (proj2 (load_schema_success demo_yaml demo_json
                  (mkWorld [("schema.yml", FText demo_yaml_text)] demo_walk)
                  (mkValidator "." "schema.yml" [] VNone) [] _)).
  exists demo_yaml_text, doc_users_get.
  split; [reflexivity|]. split; [left; split; reflexivity | reflexivity].
Defined.



(** X12: once the schema is loaded and the tree scanned, [main] exits with
    status 0 after the INFO record "API Endpoint Validation Passed." when
    validation returns no error; with status 1 after "API Endpoint
    Validation Failed:" and one ERROR record per error, in order, when it
    returns errors; and with status 1 after a CRITICAL record when
    validation raises. *)
Theorem main_outcome_after_scan y j w cp sp st1 st2 :
  load_schema y j w (init_state cp sp) = (st1, Ok tt) ->
  find_endpoints w st1 = (st2, Ok tt) ->
  exists logs, opened_files logs = [] /\
  main y j w cp sp =
    match validate_on (self st2) with
    | Ok [] => (0%Z, trace st2 ++ logs ++ [ELog INFO "API Endpoint Validation Passed."])
    | Ok errs =>
        (1%Z, trace st2 ++ logs ++ ELog ERROR "API Endpoint Validation Failed:" :: map (ELog ERROR) errs)
    | Raise e =>
        (1%Z, trace st2 ++ logs ++ [ELog CRITICAL ("An unexpected error occurred: " ++ exn_str e)%string])
    end%list.
Proof. apply main_report_aux. Qed.

Definition null_entry_world : world :=
  mkWorld [("schema.json", FText demo_json_text); ("./app.py", FText demo_app_py)] demo_walk.

Definition null_entry_json (c : string) : value + string :=
  if String.eqb c demo_json_text then inl doc_users_null else inr "Expecting value: line 1 column 1 (char 0)".

Lemma main_outcome_after_scan_witness :
  let st1 := fst (load_schema demo_yaml null_entry_json null_entry_world (init_state "." "schema.json")) in
  let st2 := fst (find_endpoints null_entry_world st1) in
  load_schema demo_yaml null_entry_json null_entry_world (init_state "." "schema.json") = (st1, Ok tt) /\
  find_endpoints null_entry_world st1 = (st2, Ok tt) /\
  exists logs, opened_files logs = [] /\
  main demo_yaml null_entry_json null_entry_world "." "schema.json" =
    (1%Z, trace st2 ++ logs ++
          [ELog CRITICAL "An unexpected error occurred: 'NoneType' object has no attribute 'keys'"])%list.
Proof.
  intros st1 st2.
  assert (H1 : load_schema demo_yaml null_entry_json null_entry_world (init_state "." "schema.json")
               = (st1, Ok tt)) by reflexivity.
  assert (H2 : find_endpoints null_entry_world st1 = (st2, Ok tt)) by reflexivity.
  split; [exact H1|]. split; [exact H2|].
  exact (main_outcome_after_scan demo_yaml null_entry_json null_entry_world "." "schema.json" st1 st2 H1 H2).
Defined.

(** X13: once [parse_args] has returned, that is in the part of [main] from
    its [try] block on, the run always ends with exit status 0 or 1. *)
Theorem main_exit_status y j w cp sp :
  fst (main y j w cp sp) = 0%Z \/ fst (main y j w cp sp) = 1%Z.
Proof.
  destruct (main_cases y j w cp sp)
    as [[st1 [e [_ ->]]]|[[st1 [st2 [e [_ [_ ->]]]]]|[st1 [st2 [_ [_ [logs [_ ->]]]]]]]];
    [right; reflexivity | right; reflexivity |].
  destruct (validate_on (self st2)) as [[|m rest]|e]; [left | right | right]; reflexivity.
Qed.

(** X14: once [parse_args] has returned, the run ends with exit status 0
    exactly when the schema loads, the scan succeeds and validation returns
    an empty list of errors. *)
Theorem main_exit_zero_iff y j w cp sp :
  fst (main y j w cp sp) = 0%Z <->
  exists st1 st2, load_schema y j w (init_state cp sp) = (st1, Ok tt) /\
    find_endpoints w st1 = (st2, Ok tt) /\ validate_on (self st2) = Ok [].
Proof.
  split.
  - destruct (main_cases y j w cp sp)
      as [[st1 [e [_ ->]]]|[[st1 [st2 [e [_ [_ ->]]]]]|[st1 [st2 [E1 [E2 [logs [_ ->]]]]]]]];
      intros H; cbn [fst] in H; try discriminate H.
    destruct (validate_on (self st2)) as [[|m rest]|e] eqn:Ev; try discriminate H.
    exists st1, st2. auto.
  - intros [st1 [st2 [E1 [E2 Ev]]]].
    destruct (main_report_aux y j w cp sp st1 st2 E1 E2) as [logs [_ ->]]. rewrite Ev. reflexivity.
Qed.

(** X15: [main] opens the schema file first; the files it opens after it
    are, in order, the first files ending in [.py] listed by the walk of the
    code path, and no other file. *)
Theorem main_opened_files y j w cp sp :
  exists pre suf, opened_files (snd (main y j w cp sp)) = sp :: pre /\
    (pre ++ suf)%list = py_paths w cp.
Proof.
  destruct (main_cases y j w cp sp)
    as [[st1 [e [E1 ->]]]|[[st1 [st2 [e [E1 [E2 ->]]]]]|[st1 [st2 [E1 [E2 [logs [Ol ->]]]]]]]].
  - destruct (load_schema_opened _ _ _ _ _ _ _ E1) as [l1 [T1 O1]].
    exists [], (py_paths w cp). cbn [snd]. rewrite T1.
    autorewrite with opened. rewrite O1. split; reflexivity.
  - destruct (load_schema_opened _ _ _ _ _ _ _ E1) as [l1 [T1 O1]].
    destruct (load_schema_effect _ _ _ _ _ _ _ E1) as [Hcp _].
    destruct st1 as [v1 tr1]. cbn [self trace code_path init_state] in T1, Hcp.
    destruct (find_endpoints_opened _ _ _ _ _ E2) as [opened [suf [l2 [T2 [O2 P2]]]]].
    exists opened, suf. cbn [snd]. rewrite T2, T1.
    autorewrite with opened. rewrite O1, O2. autorewrite with opened.
    rewrite Hcp in P2. split; [reflexivity | exact P2].
  - destruct (load_schema_opened _ _ _ _ _ _ _ E1) as [l1 [T1 O1]].
    destruct (load_schema_effect _ _ _ _ _ _ _ E1) as [Hcp _].
    destruct st1 as [v1 tr1]. cbn [self trace code_path init_state] in T1, Hcp.
    destruct (find_endpoints_opened _ _ _ _ _ E2) as [opened [suf [l2 [T2 [O2 P2]]]]].
    exists opened, suf. rewrite Hcp in P2. split; [|exact P2].
    destruct (validate_on (self st2)) as [[|m rest]|e]; cbn [snd]; rewrite T2, T1;
      autorewrite with opened; rewrite O1, O2, Ol; autorewrite with opened; reflexivity.
Qed.

(** X16: [load_schema] and [find_endpoints] act on separate fields: if
    loading and then scanning succeeds, scanning and then loading succeeds
    too and leaves the same validator object. *)
Theorem load_find_commute y j w v tr st2 :
  (let* _ := load_schema y j w in find_endpoints w) (mkState v tr) = (st2, Ok tt) ->
  exists st2', (let* _ := find_endpoints w in load_schema y j w) (mkState v tr) = (st2', Ok tt) /\
    self st2' = self st2.
Proof.
  unfold bind. destruct (load_schema y j w (mkState v tr)) as [st1 [[]|e]] eqn:E1; [|discriminate].
  apply load_schema_ok_iff in E1 as [c [d [Hf [Hp ->]]]].
  rewrite !find_endpoints_pass. cbn [code_path].
  destruct (scan_pass w (py_paths w (code_path v))) as [[recs opened] [e|]] eqn:Hs; [discriminate|].
  intros H. injection H as <-.
  eexists. split.
  - apply load_schema_ok_iff. exists c, d. split; [exact Hf|]. split; [exact Hp | reflexivity].
  - reflexivity.
Qed.

Lemma load_find_commute_witness :
  let st := init_state "." "schema.yaml" in
  (let* _ := load_schema demo_yaml demo_json demo_world in find_endpoints demo_world) st
    = (fst ((let* _ := load_schema demo_yaml demo_json demo_world in find_endpoints demo_world) st), Ok tt) /\
  exists st2', (let* _ := find_endpoints demo_world in load_schema demo_yaml demo_json demo_world) st
    = (st2', Ok tt) /\
    self st2' = self (fst ((let* _ := load_schema demo_yaml demo_json demo_world in find_endpoints demo_world) st)).
Proof.
  intros st.
  assert (H : (let* _ := load_schema demo_yaml demo_json demo_world in find_endpoints demo_world) st
    = (fst ((let* _ := load_schema demo_yaml demo_json demo_world in find_endpoints demo_world) st), Ok tt))
    by reflexivity.
  split; [exact H | exact (load_find_commute demo_yaml demo_json demo_world _ [] _ H)].
Defined.
